(** * deno_artnet: the ArtNet client of [src/lib/Artnet.ts]

    A shallow embedding of the [Artnet] class: the per-universe channel
    buffers with their high-water marks, the two frame encoders, and the
    throttled send path, followed by the properties of the specification
    that concern them.

    Modelling conventions.
    - A JavaScript [number] is an integer of [Z]; the bit operators
      [>>] and [&] are [Z.shiftr] and [Z.land] (on the bits they keep, the
      32-bit conversion of JavaScript changes nothing), [%] is [Z.rem].
      Sums and differences are exact, as JavaScript's are on safe integers
      (magnitude below 2^53); beyond those JavaScript rounds and the model
      does not.
    - The sparse arrays indexed by universe ([data], [interval],
      [throttled], [dataChanged]) are finite maps from [Z]; a missing key is
      JavaScript's [undefined].
    - A channel array is a JavaScript array: integer-keyed properties plus a
      [length]; writing past the end extends it and leaves holes.
    - Methods are computations in a state monad over the object and the
      part of the runtime it talks to (interval timers, the socket, the
      suspended [sleep] of [send]). *)

From Stdlib Require Import ZArith String.
From stdpp Require Import base option list gmap fin_maps strings numbers.

Local Open Scope Z_scope.

(** ** JavaScript arrays *)

Module JsArray.

Record t := Make { props : gmap Z Z; len : Z }.

(** [a[i]]; [None] is [undefined] (a hole, an index past the end, or a
    property that was never written). *)
Definition get (a : t) (i : Z) : option Z := props a !! i.

(** [a[i] = v]: an array index at or past [length] extends the array;
    any other key is an ordinary property and leaves [length] alone. *)
Definition put (a : t) (i v : Z) : t :=
  {| props := <[i:=v]> (props a);
     len := if decide (0 ≤ i < 4294967295) then Z.max (len a) (i + 1) else len a |}.

(** [new Array(n).fill(v)] *)
Definition fill (n v : Z) : t :=
  {| props := list_to_map ((λ i, (i, v)) <$> seqZ 0 n); len := n |}.

(** [a.slice(0, e)]: a negative [e] counts from the end. *)
Definition slice0 (a : t) (e : Z) : list (option Z) :=
  let k := if decide (e < 0) then Z.max (len a + e) 0 else Z.min e (len a) in
  (λ i, props a !! i) <$> seqZ 0 k.

End JsArray.

(** Conversion of one array element to an octet, as [Buffer.from(array)]
    and [new Uint8Array(array)] do it: the low eight bits of a number, 0
    for [undefined]. *)
Definition to_uint8 (x : option Z) : Z :=
  match x with
  | Some v => Z.land v 255
  | None => 0
  end.

Definition Buffer_from (xs : list (option Z)) : list Z := to_uint8 <$> xs.

(** Truthiness of the values the class tests with [if (...)]. *)
Definition truthy_num (x : option Z) : bool :=
  match x with
  | Some n => negb (n =? 0)
  | None => false
  end.

Definition truthy_bool (x : option bool) : bool := default false x.

(** ** The object and its surroundings *)

Record Artnet := MkArtnet {
  host : string;
  port : Z;
  refresh : Z;
  sendAll : bool;
  data : gmap Z JsArray.t;
  interval : gmap Z Z;
  throttled : gmap Z bool;
  dataChanged : gmap Z Z
}.

(** One call of [socket.send(buf, 0, buf.length, port, host, cb)]. *)
Record datagram := Datagram {
  dg_bytes : list Z;
  dg_port : Z;
  dg_host : string
}.

Record World := MkWorld {
  this : Artnet;
  (** armed interval timers: identifier to the universe its callback sends *)
  timers : gmap Z Z;
  (** the identifier the next [setInterval] returns *)
  next_timer : Z;
  (** what was handed to the socket, oldest first *)
  sent : list datagram;
  (** universes whose [send] is suspended in [await sleep(25)] *)
  sleeping : list Z;
  (** [socket.close()] was called *)
  closed : bool
}.

Definition with_host (h : string) (a : Artnet) : Artnet :=
  MkArtnet h (port a) (refresh a) (sendAll a) (data a) (interval a)
    (throttled a) (dataChanged a).
Definition with_port (p : Z) (a : Artnet) : Artnet :=
  MkArtnet (host a) p (refresh a) (sendAll a) (data a) (interval a)
    (throttled a) (dataChanged a).
Definition upd_data (f : gmap Z JsArray.t → gmap Z JsArray.t) (a : Artnet) : Artnet :=
  MkArtnet (host a) (port a) (refresh a) (sendAll a) (f (data a)) (interval a)
    (throttled a) (dataChanged a).
Definition upd_interval (f : gmap Z Z → gmap Z Z) (a : Artnet) : Artnet :=
  MkArtnet (host a) (port a) (refresh a) (sendAll a) (data a) (f (interval a))
    (throttled a) (dataChanged a).
Definition upd_throttled (f : gmap Z bool → gmap Z bool) (a : Artnet) : Artnet :=
  MkArtnet (host a) (port a) (refresh a) (sendAll a) (data a) (interval a)
    (f (throttled a)) (dataChanged a).
Definition upd_dataChanged (f : gmap Z Z → gmap Z Z) (a : Artnet) : Artnet :=
  MkArtnet (host a) (port a) (refresh a) (sendAll a) (data a) (interval a)
    (throttled a) (f (dataChanged a)).

Definition upd_this (f : Artnet → Artnet) (w : World) : World :=
  MkWorld (f (this w)) (timers w) (next_timer w) (sent w) (sleeping w) (closed w).
Definition upd_timers (f : gmap Z Z → gmap Z Z) (w : World) : World :=
  MkWorld (this w) (f (timers w)) (next_timer w) (sent w) (sleeping w) (closed w).
Definition upd_next_timer (f : Z → Z) (w : World) : World :=
  MkWorld (this w) (timers w) (f (next_timer w)) (sent w) (sleeping w) (closed w).
Definition upd_sent (f : list datagram → list datagram) (w : World) : World :=
  MkWorld (this w) (timers w) (next_timer w) (f (sent w)) (sleeping w) (closed w).
Definition upd_sleeping (f : list Z → list Z) (w : World) : World :=
  MkWorld (this w) (timers w) (next_timer w) (sent w) (f (sleeping w)) (closed w).
Definition with_closed (b : bool) (w : World) : World :=
  MkWorld (this w) (timers w) (next_timer w) (sent w) (sleeping w) b.

(** ** The method monad *)

Definition M (A : Type) : Type := World → A * World.

Definition ret {A} (a : A) : M A := λ w, (a, w).
Definition bind {A B} (m : M A) (k : A → M B) : M B :=
  λ w, let r := m w in k r.1 r.2.
Definition reads {A} (f : World → A) : M A := λ w, (f w, w).
Definition modify (f : World → World) : M unit := λ w, (tt, f w).

#[export] Instance M_ret : MRet M := @ret.
#[export] Instance M_bind : MBind M := λ A B k m, bind m k.

Definition exec {A} (m : M A) (w : World) : World := snd (m w).
Definition eval {A} (m : M A) (w : World) : A := fst (m w).

(** ** The runtime the class calls into *)

(** [setInterval(cb, this.refresh)] where [cb] sends [universe]: a fresh
    identifier is returned and the timer is armed. Identifiers start at 1
    and are never reused, so an armed identifier is truthy. *)
Definition setInterval (universe : Z) : M Z :=
  id ← reads next_timer;
  modify (upd_timers <[id:=universe]>);;
  modify (upd_next_timer (λ n, n + 1));;
  mret id.

(** [clearInterval(id)]; clearing [undefined] or a dead timer does nothing. *)
Definition clearInterval (id : option Z) : M unit :=
  match id with
  | Some i => modify (upd_timers (delete i))
  | None => mret ()
  end.

(** [this.socket.send(buf, 0, buf.length, this.port, this.host, resolve)] *)
Definition socket_send (buf : list Z) : M unit :=
  p ← reads (λ w, port (this w));
  h ← reads (λ w, host (this w));
  modify (upd_sent (λ out, out ++ [Datagram buf p h])).

(** [await sleep(25)] inside [send]: the rest of [send] is parked until the
    runtime resumes it (see [resume_send]). *)
Definition sleep (universe : Z) : M unit :=
  modify (upd_sleeping (λ q, q ++ [universe])).

(** ** The class *)

Record Config := MkConfig {
  cfg_host : option string;
  cfg_port : option Z;
  cfg_refresh : option Z;
  cfg_sendAll : option bool;
  cfg_iface : option string
}.

Definition no_config : Config := MkConfig None None None None None.

(** [s || d] for a string: the empty string is falsy. *)
Definition or_string (s : option string) (d : string) : string :=
  match s with
  | Some x => if decide (x = EmptyString) then d else x
  | None => d
  end.

(** [n || d] for a number: 0 is falsy. *)
Definition or_num (n : option Z) (d : Z) : Z :=
  match n with
  | Some x => if x =? 0 then d else x
  | None => d
  end.

Definition broadcast : string := "255.255.255.255".

(** The constructor: the fields of a new object. Creating and binding the
    socket is the transport's business and leaves no trace here. *)
Definition constructor (_config : option Config) : World :=
  let config := default no_config _config in
  {| this :=
       {| host := or_string (cfg_host config) broadcast;
          port := or_num (cfg_port config) 6454;
          refresh := or_num (cfg_refresh config) 4000;
          sendAll := default false (cfg_sendAll config);
          data := ∅;
          interval := ∅;
          throttled := ∅;
          dataChanged := ∅ |};
     timers := ∅;
     next_timer := 1;
     sent := [];
     sleeping := [];
     closed := false |}.

Definition refreshInterval (universe : Z) : M unit :=
  old ← reads (λ w, interval (this w) !! universe);
  (if truthy_num old then clearInterval old else mret ());;
  id ← setInterval universe;
  modify (upd_this (upd_interval <[universe:=id]>)).

Definition art_net_id : list Z := [65; 114; 116; 45; 78; 101; 116; 0].

Definition triggerPackage (oem key subkey : option Z) : M (list Z) :=
  let oem := default 65535 oem in
  let key := default 255 key in
  let subkey := default 0 subkey in
  let hOem := Z.land (Z.shiftr oem 8) 255 in
  let lOem := Z.land oem 255 in
  let header := art_net_id ++ [0; 153; 0; 14; 0; 0; hOem; lOem; key; subkey] in
  let payload := replicate 512 0 in
  mret (Buffer_from (Some <$> header ++ payload)).

(** What a method hands back to its caller. *)
Inductive promise :=
  | Resolved_null
  | Rejected_RangeError (msg : string)
  | Settles_with_socket.

Definition trigger (oem key subkey : Z) : M promise :=
  buf ← triggerPackage (Some oem) (Some key) (Some subkey);
  socket_send buf;;
  mret Settles_with_socket.

(** [if (!this.data[universe]) this.data[universe] = new Array(512).fill(0)] *)
Definition ensure_data (universe : Z) : M unit :=
  d ← reads (λ w, data (this w) !! universe);
  match d with
  | Some _ => mret ()
  | None => modify (upd_this (upd_data <[universe:=JsArray.fill 512 0]>))
  end.

(** [this.data[universe]] once [ensure_data] has run. *)
Definition channels_of (universe : Z) : M JsArray.t :=
  reads (λ w, default (JsArray.fill 512 0) (data (this w) !! universe)).

(** The even length the encoder works with. *)
Definition even_up (length : Z) : Z :=
  if decide (Z.rem length 2 ≠ 0) then length + 1 else length.

Definition artdmxPackage (universe : Z) (length : option Z) : M (list Z) :=
  let length := even_up (default 2 length) in
  let hUni := Z.land (Z.shiftr universe 8) 255 in
  let lUni := Z.land universe 255 in
  let hLen := Z.land (Z.shiftr length 8) 255 in
  let lLen := Z.land length 255 in
  let header := art_net_id ++ [0; 80; 0; 14; 0; 0; lUni; hUni; hLen; lLen] in
  ensure_data universe;;
  channels ← channels_of universe;
  mret (Buffer_from ((Some <$> header) ++ JsArray.slice0 channels (hLen * 256 + lLen))).

Definition send (universe : Z) (refresh : bool) : M promise :=
  all ← reads (λ w, sendAll (this w));
  let refresh := if (all : bool) then true else refresh in
  refreshInterval universe;;
  busy ← reads (λ w, throttled (this w) !! universe);
  if truthy_bool busy then mret (Rejected_RangeError "Call already pending")
  else
    modify (upd_this (upd_throttled <[universe:=true]>));;
    changed ← reads (λ w, dataChanged (this w) !! universe);
    buf ← artdmxPackage universe (if refresh then Some 512 else changed);
    modify (upd_this (upd_dataChanged <[universe:=0]>));;
    socket_send buf;;
    sleep universe;;
    mret Settles_with_socket.

(** The remainder of [send] after [await sleep(25)]. *)
Definition resume_send (universe : Z) : M unit :=
  modify (upd_this (upd_throttled <[universe:=false]>)).

Inductive value :=
  | Num (v : Z)
  | Arr (vs : list Z).

(** [a > b] where [b] may be [undefined]: comparing with [undefined] is
    false. *)
Definition gt_num (a : Z) (b : option Z) : bool :=
  match b with
  | Some c => bool_decide (a > c)
  | None => false
  end.

(** One guarded store of [set]: [v] goes to [index] when it differs from
    what is there, and the mark moves up to [index + 1] (which is [channel]
    in the single-value branch). *)
Definition store (universe index v : Z) : M unit :=
  channels ← channels_of universe;
  if decide (JsArray.get channels index ≠ Some v) then
    modify (upd_this (upd_data <[universe:=JsArray.put channels index v]>));;
    changed ← reads (λ w, dataChanged (this w) !! universe);
    if gt_num (index + 1) changed
    then modify (upd_this (upd_dataChanged <[universe:=index + 1]>))
    else mret ()
  else mret ().

(** [for (let i = i0; i < value.length; i++)] over the remaining values. *)
Fixpoint store_from (universe channel i : Z) (vs : list Z) : M unit :=
  match vs with
  | [] => mret ()
  | v :: rest =>
      store universe (channel + i - 1) v;;
      store_from universe channel (i + 1) rest
  end.

(** [set(value, channel = 1, universe = 0)]; the caller fills in the
    defaults. *)
Definition set (value : value) (channel universe : Z) : M promise :=
  ensure_data universe;;
  modify (upd_this (upd_dataChanged
    (λ dc, <[universe:=or_num (dc !! universe) 0]> dc)));;
  match value with
  | Arr ((_ :: _) as vs) => store_from universe channel 0 vs
  | Arr [] => mret ()
  | Num v => store universe (channel - 1) v
  end;;
  changed ← reads (λ w, dataChanged (this w) !! universe);
  if truthy_num changed then send universe false else mret Resolved_null.

(** [close]: the loop runs over the indices below [this.interval.length],
    that is over every universe with a timer that is an array index. *)
Definition close : M unit :=
  ivs ← reads (λ w, map_to_list (interval (this w)));
  modify (upd_timers (λ t,
    foldr (λ (e : Z * Z) t,
             if decide (0 ≤ e.1 < 4294967295) then delete e.2 t else t) t ivs));;
  modify (with_closed true).

Definition setHost (h : string) : M unit :=
  modify (upd_this (with_host h)).

Inductive outcome :=
  | Returned
  | Thrown (msg : string).

Definition setPort (p : Z) : M outcome :=
  h ← reads (λ w, host (this w));
  if decide (h = broadcast)
  then mret (Thrown "Can't change port when using broadcast address 255.255.255.255")
  else modify (upd_this (with_port p));; mret Returned.

(** ** Runs *)

(** What can happen to an object: a method call from outside (or from a
    subclass, for the protected ones), an interval timer going off, or a
    parked [send] being resumed. *)
Inductive action :=
  | CallSet (v : value) (channel universe : Z)
  | CallSend (universe : Z) (refresh : bool)
  | CallTrigger (oem key subkey : Z)
  | CallSetHost (h : string)
  | CallSetPort (p : Z)
  | CallClose
  | TimerFires (id : Z)
  | SleepEnds (universe : Z).

Fixpoint remove_first (x : Z) (q : list Z) : list Z :=
  match q with
  | [] => []
  | y :: q' => if decide (x = y) then q' else y :: remove_first x q'
  end.

Definition step (w : World) (a : action) : World :=
  match a with
  | CallSet v channel universe => exec (set v channel universe) w
  | CallSend universe r => exec (send universe r) w
  | CallTrigger oem key subkey => exec (trigger oem key subkey) w
  | CallSetHost h => exec (setHost h) w
  | CallSetPort p => exec (setPort p) w
  | CallClose => exec close w
  | TimerFires id =>
      match timers w !! id with
      | Some universe => exec (send universe true) w
      | None => w
      end
  | SleepEnds universe =>
      if decide (universe ∈ sleeping w)
      then exec (resume_send universe)
             (upd_sleeping (remove_first universe) w)
      else w
  end.

Definition run (w : World) (acts : list action) : World := foldl step w acts.

(** ** Observations the statements are phrased in *)

(** The channel array of a universe as the methods see it: the stored
    array, or the zero-filled one the next access allocates. *)
Definition stored (w : World) (universe : Z) : JsArray.t :=
  eval (channels_of universe) w.

(** The high-water mark of a universe; an unset mark counts as 0. *)
Definition mark (w : World) (universe : Z) : Z :=
  default 0 (dataChanged (this w) !! universe).

Definition is_throttled (w : World) (universe : Z) : bool :=
  truthy_bool (throttled (this w) !! universe).

(** Bytes 16 and 17 of a data frame, high byte first. *)
Definition length_field (frame : list Z) : Z :=
  nth 16 frame 0 * 256 + nth 17 frame 0.

Definition payload (frame : list Z) : list Z := drop 18 frame.

(** The first [n] channels of an array as octets. *)
Definition first_channels (a : JsArray.t) (n : Z) : list Z :=
  (λ i, to_uint8 (JsArray.get a i)) <$> seqZ 0 n.

(** The guarded store of [set] on the pair it works on: the channel array
    and the mark of one universe. *)
Definition store1 (index v : Z) (s : JsArray.t * Z) : JsArray.t * Z :=
  if decide (JsArray.get s.1 index ≠ Some v)
  then (JsArray.put s.1 index v, if bool_decide (index + 1 > s.2) then index + 1 else s.2)
  else s.

Fixpoint stores (channel i : Z) (vs : list Z) (s : JsArray.t * Z) : JsArray.t * Z :=
  match vs with
  | [] => s
  | v :: rest => stores channel (i + 1) rest (store1 (channel + i - 1) v s)
  end.

Definition store_value (v : value) (channel : Z) (s : JsArray.t * Z) : JsArray.t * Z :=
  match v with
  | Num x => store1 (channel - 1) x s
  | Arr vs => stores channel 0 vs s
  end.

Definition put_buffer (universe : Z) (s : JsArray.t * Z) (w : World) : World :=
  upd_this (λ o, upd_dataChanged <[universe:=s.2]> (upd_data <[universe:=s.1]> o)) w.

(** Some position of the request holds a value other than the one asked
    for. *)
Fixpoint differs_from (a : JsArray.t) (channel i : Z) (vs : list Z) : bool :=
  match vs with
  | [] => false
  | v :: rest =>
      bool_decide (JsArray.get a (channel + i - 1) ≠ Some v)
      || differs_from a channel (i + 1) rest
  end.

Definition differing (a : JsArray.t) (v : value) (channel : Z) : bool :=
  match v with
  | Num x => bool_decide (JsArray.get a (channel - 1) ≠ Some x)
  | Arr vs => differs_from a channel 0 vs
  end.

(** The action is a [set] on [universe] that stores a differing value. *)
Definition stores_differing (universe : Z) (w : World) (a : action) : bool :=
  match a with
  | CallSet v channel u => bool_decide (u = universe) && differing (stored w u) v channel
  | _ => false
  end.

(** No action of the run stores a differing value in [universe]. *)
Fixpoint quiet (universe : Z) (w : World) (acts : list action) : bool :=
  match acts with
  | [] => true
  | a :: rest => negb (stores_differing universe w a) && quiet universe (step w a) rest
  end.

(** The highest channel position a [set] request addresses. *)
Definition last_channel (v : value) (channel : Z) : Z :=
  match v with
  | Num _ => channel
  | Arr vs => channel + Z.of_nat (length vs) - 1
  end.

Definition within_512 (a : action) : Prop :=
  match a with
  | CallSet v channel _ => last_channel v channel ≤ 512
  | _ => True
  end.

(** A channel array still has its 512 channels, all of them numbers. *)
Definition buffer_ok (a : JsArray.t) : Prop :=
  512 ≤ JsArray.len a ∧ ∀ i, 0 ≤ i < 512 → is_Some (JsArray.get a i).

Definition buffers_ok (w : World) : Prop :=
  ∀ u a, data (this w) !! u = Some a → buffer_ok a.

Definition is_thrown (o : outcome) : Prop :=
  match o with
  | Thrown _ => True
  | Returned => False
  end.

Definition is_rejected (p : promise) : Prop :=
  match p with
  | Rejected_RangeError _ => True
  | _ => False
  end.

(** Every mark that is set lies between 0 and 512. *)
Definition marks_within_512 (w : World) : Prop :=
  ∀ u c, dataChanged (this w) !! u = Some c → 0 ≤ c ≤ 512.

(** The ASCII codes of a string. *)
Definition ascii_codes (s : string) : list Z :=
  (λ c, Z.of_nat (Ascii.nat_of_ascii c)) <$> String.list_ascii_of_string s.

(** Two worlds that differ at most in the destination port. *)
Definition same_but_port (w w' : World) : Prop :=
  host (this w') = host (this w) ∧ refresh (this w') = refresh (this w) ∧
  sendAll (this w') = sendAll (this w) ∧ data (this w') = data (this w) ∧
  interval (this w') = interval (this w) ∧ throttled (this w') = throttled (this w) ∧
  dataChanged (this w') = dataChanged (this w) ∧ timers w' = timers w ∧
  next_timer w' = next_timer w ∧ sent w' = sent w ∧ sleeping w' = sleeping w ∧
  closed w' = closed w.

(** ** Scenarios *)

(** A new object with the default configuration. *)
Definition fresh : World := constructor None.

(** [set(255, 1, 0)] on a new object: the frame goes out and universe 0 is
    throttled. *)
Definition lit : World := run fresh [CallSet (Num 255) 1 0].

(** ... followed at once by [set(10, 2, 0)], which is turned away: channel 2
    is stored and the mark stays at 2. *)
Definition pending : World := run lit [CallSet (Num 10) 2 0].

(** ... and the 25 ms have passed: universe 0 is free again, the mark is
    still 2. *)
Definition pending_free : World := run pending [SleepEnds 0].

(** [set(255, 1, 0)], and the 25 ms have passed. *)
Definition idle : World := run lit [SleepEnds 0].

(** [set(255, 1, 0)], then [set(1, 600, 0)] while throttled. *)
Definition beyond : World := run lit [CallSet (Num 1) 600 0].

(** [set(255, 1, 0)], then [set(1, 65536, 0)] while throttled, then the
    25 ms have passed. *)
Definition far_beyond : World := run lit [CallSet (Num 1) 65536 0; SleepEnds 0].

(** A destination other than the broadcast address. *)
Definition unicast : World :=
  constructor (Some (MkConfig (Some "10.0.0.7") None None None None)).

(** ** Invariants of the objects a run reaches *)

Definition is_octet (b : Z) : Prop := 0 ≤ b ≤ 255.

(** A universe that is an index of the sparse arrays, so that it counts
    towards their [length]. *)
Definition array_index (u : Z) : Prop := 0 ≤ u < 4294967295.

(** Every armed timer is the one recorded for its universe, and the
    recorded identifiers are ones the runtime has handed out. *)
Definition timers_ok (w : World) : Prop :=
  1 ≤ next_timer w ∧
  (∀ id u, timers w !! id = Some u → interval (this w) !! u = Some id) ∧
  (∀ u id, interval (this w) !! u = Some id → 1 ≤ id < next_timer w) ∧
  (∀ u1 u2 id, interval (this w) !! u1 = Some id →
               interval (this w) !! u2 = Some id → u1 = u2).

(** A universe is throttled exactly while a [send] for it is parked, and
    no universe has two parked. *)
Definition throttle_ok (w : World) : Prop :=
  NoDup (sleeping w) ∧ ∀ u, u ∈ sleeping w ↔ is_throttled w u = true.

(** Actions of the runtime, as opposed to calls. *)
Definition from_runtime (a : action) : Prop :=
  match a with
  | TimerFires _ | SleepEnds _ => True
  | _ => False
  end.

(** The frame most recently handed to the socket. *)
Definition last_sent (w : World) : option datagram := list.last (sent w).

(** [set(300, 3, 7)] on a new object: a value that is no octet. *)
Definition overdriven : World := run fresh [CallSet (Num 300) 3 7].

(** An integer JavaScript's arithmetic is exact on: sums and differences
    of such numbers that are again of this size are computed without
    rounding, as the model computes them. *)
Definition safe_integer (n : Z) : Prop :=
  - 9007199254740991 ≤ n ≤ 9007199254740991.

(** The value a [set] request asks for at array position [j] (channel
    [j + 1]), if it addresses that position. *)
Definition requested (v : value) (channel j : Z) : option Z :=
  match v with
  | Num x => if decide (j = channel - 1) then Some x else None
  | Arr vs => if decide (channel - 1 ≤ j) then vs !! Z.to_nat (j - (channel - 1)) else None
  end.

(** What [set] hands back, read off the array and the mark it finds. *)
Definition set_outcome (w : World) (v : value) (channel u : Z) : promise :=
  if truthy_num (Some (store_value v channel (stored w u, mark w u)).2)
  then if is_throttled w u
       then Rejected_RangeError "Call already pending"
       else Settles_with_socket
  else Resolved_null.

(** A frame as the protocol wants it: 18 octets of header and an even
    number [L] of payload octets, 2 to 512, and in a data frame (opcode
    octet [0x50]) the length field says [L]. *)
Definition wire_ok (frame : list Z) : Prop :=
  ∃ L, 2 ≤ L ≤ 512 ∧ Z.even L = true ∧
       length frame = Z.to_nat (18 + L) ∧
       (nth 9 frame 0 = 80 → length_field frame = L).

(** The calls a user of the class can make, within channel 512, together
    with what the runtime does and the forced sends of the refresh. *)
Definition ordinary (a : action) : Prop :=
  match a with
  | CallSet v channel _ => last_channel v channel ≤ 512
  | CallSend _ r => r = true
  | _ => True
  end.

(** * Properties *)

(** ** Octets and arithmetic *)

Lemma land_255 (v : Z) : Z.land v 255 = v mod 256.
Proof. change 255 with (Z.ones 8). by rewrite Z.land_ones. Qed.

Lemma to_uint8_range (x : option Z) : 0 ≤ to_uint8 x ≤ 255.
Proof.
  destruct x as [v|]; simpl; [|lia].
  rewrite land_255. pose proof (Z.mod_pos_bound v 256). lia.
Qed.

Lemma to_uint8_octet (v : Z) : 0 ≤ v ≤ 255 → to_uint8 (Some v) = v.
Proof. intros Hv. simpl. rewrite land_255. apply Z.mod_small. lia. Qed.

Lemma high_byte (n : Z) : Z.land (Z.shiftr n 8) 255 = (n / 256) mod 256.
Proof. rewrite land_255, Z.shiftr_div_pow2 by lia. reflexivity. Qed.

Lemma length_bytes (n : Z) :
  Z.land (Z.shiftr n 8) 255 * 256 + Z.land n 255 = n mod 65536.
Proof.
  rewrite high_byte, land_255.
  change 65536 with (256 * 256).
  rewrite Z.rem_mul_r by lia. lia.
Qed.

Lemma even_up_spec (n : Z) :
  0 ≤ n → Z.even (even_up n) = true ∧ n ≤ even_up n ≤ n + 1.
Proof.
  intros Hn. unfold even_up.
  rewrite Z.rem_mod_nonneg by lia.
  destruct (decide _) as [Hodd|Heven].
  - split; [|lia]. rewrite Z.even_spec. exists ((n + 1) / 2).
    pose proof (Z.div_mod (n + 1) 2). pose proof (Z.div_mod n 2).
    pose proof (Z.mod_pos_bound n 2). 
    assert ((n + 1) mod 2 = 0); [|lia].
    rewrite <- Zplus_mod_idemp_l. replace (n mod 2) with 1 by lia. reflexivity.
  - split; [|lia]. rewrite Z.even_spec. exists (n / 2).
    pose proof (Z.div_mod n 2). lia.
Qed.

Lemma even_up_even (n : Z) : Z.even n = true → even_up n = n.
Proof.
  intros He. unfold even_up. destruct (decide _) as [Hodd|]; [|done].
  exfalso. apply Hodd. apply Z.even_spec in He as [k ->].
  rewrite Z.mul_comm. apply Z.rem_mul. lia.
Qed.

(** ** Channel arrays *)

Lemma fill_lookup (n v i : Z) :
  JsArray.get (JsArray.fill n v) i = if decide (0 ≤ i < n) then Some v else None.
Proof.
  unfold JsArray.get, JsArray.fill; simpl.
  assert (Hfst : ((λ i, (i, v)) <$> seqZ 0 n).*1 = seqZ 0 n).
  { rewrite <- list_fmap_compose. apply list_fmap_id. }
  destruct (decide _) as [Hin|Hout].
  - apply elem_of_list_to_map_1.
    + rewrite Hfst. apply NoDup_seqZ.
    + apply list_elem_of_fmap. exists i. split; [done|]. apply elem_of_seqZ. lia.
  - apply not_elem_of_list_to_map_1. rewrite Hfst, elem_of_seqZ. lia.
Qed.

Lemma fill_ok : buffer_ok (JsArray.fill 512 0).
Proof.
  split; [simpl; lia|]. intros i Hi. rewrite fill_lookup.
  rewrite decide_True by done. by eexists.
Qed.

Lemma put_ok (a : JsArray.t) (i v : Z) : buffer_ok a → buffer_ok (JsArray.put a i v).
Proof.
  intros [Hlen Hdef]. split.
  - simpl. destruct (decide _); lia.
  - intros j Hj. unfold JsArray.get, JsArray.put; simpl.
    destruct (decide (i = j)) as [->|Hne].
    + rewrite lookup_insert_eq. by eexists.
    + rewrite lookup_insert_ne by done. by apply Hdef.
Qed.

Lemma put_len (a : JsArray.t) (i v : Z) : JsArray.len a ≤ JsArray.len (JsArray.put a i v).
Proof. simpl. destruct (decide _); lia. Qed.

Lemma slice0_channels (a : JsArray.t) (e : Z) :
  0 ≤ e →
  Buffer_from (JsArray.slice0 a e) = first_channels a (Z.min e (JsArray.len a)).
Proof.
  intros He. unfold Buffer_from, JsArray.slice0, first_channels.
  rewrite decide_False by lia. by rewrite <- list_fmap_compose.
Qed.

Lemma length_first_channels (a : JsArray.t) (n : Z) :
  length (first_channels a n) = Z.to_nat n.
Proof. unfold first_channels. by rewrite length_fmap, length_seqZ. Qed.

Lemma lookup_first_channels (a : JsArray.t) (n i : Z) :
  0 ≤ i < n →
  first_channels a n !! Z.to_nat i = Some (to_uint8 (JsArray.get a i)).
Proof.
  intros Hi. unfold first_channels. rewrite list_lookup_fmap.
  rewrite (lookup_seqZ_lt 0 n (Z.to_nat i)) by lia. simpl.
  do 3 f_equal. lia.
Qed.

Lemma first_channels_fill (n : Z) :
  0 ≤ n ≤ 512 → first_channels (JsArray.fill 512 0) n = replicate (Z.to_nat n) 0.
Proof.
  intros Hn. apply list_eq. intros k.
  destruct (decide (k < Z.to_nat n)%nat) as [Hk|Hk].
  - rewrite lookup_replicate_2 by done.
    replace k with (Z.to_nat (Z.of_nat k)) at 1 by lia.
    rewrite lookup_first_channels by lia.
    rewrite fill_lookup, decide_True by lia. done.
  - rewrite !lookup_ge_None_2; [done| |].
    + rewrite length_replicate. lia.
    + rewrite length_first_channels. lia.
Qed.

(** ** What each method does to the world *)

Lemma exec_bind {A B} (m : M A) (k : A → M B) (w : World) :
  exec (mbind k m) w = exec (k (eval m w)) (exec m w).
Proof. reflexivity. Qed.

Lemma eval_bind {A B} (m : M A) (k : A → M B) (w : World) :
  eval (mbind k m) w = eval (k (eval m w)) (exec m w).
Proof. reflexivity. Qed.

Lemma exec_ret {A} (a : A) (w : World) : exec (mret a) w = w.
Proof. reflexivity. Qed.

Lemma eval_ret {A} (a : A) (w : World) : eval (mret a) w = a.
Proof. reflexivity. Qed.

Lemma exec_reads {A} (f : World → A) (w : World) : exec (reads f) w = w.
Proof. reflexivity. Qed.

Lemma eval_reads {A} (f : World → A) (w : World) : eval (reads f) w = f w.
Proof. reflexivity. Qed.

Lemma exec_modify (f : World → World) (w : World) : exec (modify f) w = f w.
Proof. reflexivity. Qed.

Lemma method_pair {A} (m : M A) (w : World) : m w = (eval m w, exec m w).
Proof. unfold eval, exec. by destruct (m w). Qed.

Create Rewrite HintDb method.
#[local] Hint Rewrite @exec_bind @eval_bind @exec_ret @eval_ret @exec_reads
  @eval_reads @exec_modify : method.

Ltac unfold_m :=
  unfold exec, eval, mbind, M_bind, bind, mret, M_ret, ret, reads, modify.

(** Projections of updated records. *)
Ltac fields :=
  cbn [this timers next_timer sent sleeping closed
       host port refresh sendAll data interval throttled dataChanged
       with_host with_port upd_data upd_interval upd_throttled upd_dataChanged
       upd_this upd_timers upd_next_timer upd_sent upd_sleeping with_closed
       truthy_bool default fst snd] in *.

Ltac step_m := autorewrite with method; fields.

Lemma refreshInterval_this (u : Z) (w : World) :
  this (exec (refreshInterval u) w) = upd_interval <[u:=next_timer w]> (this w).
Proof.
  unfold refreshInterval, setInterval, clearInterval. unfold_m. simpl.
  by destruct (truthy_num _), (interval (this w) !! u).
Qed.

Lemma refreshInterval_sent (u : Z) (w : World) :
  sent (exec (refreshInterval u) w) = sent w.
Proof.
  unfold refreshInterval, setInterval, clearInterval. unfold_m. simpl.
  by destruct (truthy_num _), (interval (this w) !! u).
Qed.

Lemma ensure_data_exec (u : Z) (w : World) :
  exec (ensure_data u) w =
  match data (this w) !! u with
  | Some _ => w
  | None => upd_this (upd_data <[u:=JsArray.fill 512 0]>) w
  end.
Proof. unfold ensure_data. unfold_m. simpl. by destruct (data (this w) !! u). Qed.

Lemma ensure_data_stored (u u' : Z) (w : World) :
  stored (exec (ensure_data u) w) u' = stored w u'.
Proof.
  rewrite ensure_data_exec. unfold stored, channels_of. unfold_m. simpl.
  destruct (data (this w) !! u) eqn:Hd; [done|]. simpl.
  destruct (decide (u = u')) as [->|Hne].
  - by rewrite lookup_insert_eq, Hd.
  - by rewrite lookup_insert_ne.
Qed.

Lemma ensure_data_lookup (u : Z) (w : World) :
  data (this (exec (ensure_data u) w)) !! u = Some (stored w u).
Proof.
  rewrite ensure_data_exec. unfold stored, channels_of. unfold_m. simpl.
  destruct (data (this w) !! u) eqn:Hd; simpl; [done|].
  by rewrite lookup_insert_eq.
Qed.

Lemma artdmxPackage_exec (u : Z) (n : option Z) (w : World) :
  exec (artdmxPackage u n) w = exec (ensure_data u) w.
Proof.
  unfold artdmxPackage, channels_of, ensure_data. unfold_m. simpl.
  by destruct (data (this w) !! u).
Qed.

(** The frame is the 18-octet header followed by the channels the slice
    takes: as many as the 16-bit length says, or all there are. *)
Lemma artdmxPackage_eval (u : Z) (n : option Z) (w : World) :
  eval (artdmxPackage u n) w =
  art_net_id ++
  [0; 80; 0; 14; 0; 0; Z.land u 255; Z.land (Z.shiftr u 8) 255;
   Z.land (Z.shiftr (even_up (default 2 n)) 8) 255; Z.land (even_up (default 2 n)) 255] ++
  first_channels (stored w u)
    (Z.min (even_up (default 2 n) mod 65536) (JsArray.len (stored w u))).
Proof.
  pose proof (ensure_data_lookup u w) as Hd.
  unfold artdmxPackage, channels_of. unfold_m. simpl.
  fold (exec (ensure_data u) w). rewrite Hd. simpl.
  set (m := even_up (default 2 n)).
  assert (Hidem : ∀ x, Z.land (Z.land x 255) 255 = Z.land x 255).
  { intros x. by rewrite <- Z.land_assoc. }
  rewrite !Hidem. do 18 (f_equal; [reflexivity..|]).
  rewrite length_bytes.
  pose proof (Z.mod_pos_bound m 65536).
  change (to_uint8 <$> ?l) with (Buffer_from l).
  apply slice0_channels. lia.
Qed.

Lemma send_busy (u : Z) (r : bool) (w : World) :
  is_throttled w u = true →
  send u r w =
  (Rejected_RangeError "Call already pending", exec (refreshInterval u) w).
Proof.
  unfold is_throttled. intros Hb.
  unfold send, refreshInterval, setInterval, clearInterval. unfold_m. simpl.
  by destruct (truthy_num _), (interval (this w) !! u); simpl; rewrite Hb.
Qed.

Lemma send_busy_exec (u : Z) (r : bool) (w : World) :
  is_throttled w u = true → exec (send u r) w = exec (refreshInterval u) w.
Proof. intros Hb. unfold exec at 1. by rewrite send_busy. Qed.

Lemma send_busy_eval (u : Z) (r : bool) (w : World) :
  is_throttled w u = true →
  eval (send u r) w = Rejected_RangeError "Call already pending".
Proof. intros Hb. unfold eval. by rewrite send_busy. Qed.

(** A [send] that passes the throttle test: what it returns, what it
    leaves in the object, and what it hands to the socket. *)
Lemma send_free (u : Z) (r : bool) (w : World) :
  is_throttled w u = false →
  let n := if (if sendAll (this w) then true else r)
           then Some 512 else dataChanged (this w) !! u in
  eval (send u r) w = Settles_with_socket ∧
  this (exec (send u r) w) =
    upd_dataChanged <[u:=0]>
      (upd_data <[u:=stored w u]>
         (upd_throttled <[u:=true]>
            (upd_interval <[u:=next_timer w]> (this w)))) ∧
  sent (exec (send u r) w) =
    sent w ++ [Datagram (eval (artdmxPackage u n) w) (port (this w)) (host (this w))].
Proof.
  intros Hb n. unfold is_throttled in Hb.
  assert (Hframe : ∀ w1, stored w1 u = stored w u →
            eval (artdmxPackage u n) w1 = eval (artdmxPackage u n) w).
  { intros w1 Hs. by rewrite !artdmxPackage_eval, Hs. }
  unfold send, socket_send, sleep. step_m.
  rewrite !refreshInterval_this. fields. rewrite Hb. step_m.
  rewrite !artdmxPackage_exec, !ensure_data_exec. fields.
  rewrite ?refreshInterval_this, ?refreshInterval_sent. fields.
  rewrite Hframe.
  2:{ unfold stored, channels_of. step_m. by rewrite refreshInterval_this. }
  fold n. unfold stored, channels_of. step_m.
  destruct (data (this w) !! u) eqn:Hd; fields;
    rewrite ?refreshInterval_this, ?refreshInterval_sent; fields.
  - repeat split. unfold upd_dataChanged, upd_data; simpl. f_equal.
    by rewrite insert_id.
  - repeat split.
Qed.

(** *** [set]: the stores, then the send *)

Lemma put_buffer_data (u : Z) (s : JsArray.t * Z) (w : World) :
  data (this (put_buffer u s w)) !! u = Some s.1.
Proof. unfold put_buffer. fields. apply lookup_insert_eq. Qed.

Lemma put_buffer_dataChanged (u : Z) (s : JsArray.t * Z) (w : World) :
  dataChanged (this (put_buffer u s w)) !! u = Some s.2.
Proof. unfold put_buffer. fields. apply lookup_insert_eq. Qed.

Lemma put_buffer_twice (u : Z) (s1 s2 : JsArray.t * Z) (w : World) :
  put_buffer u s2 (put_buffer u s1 w) = put_buffer u s2 w.
Proof.
  unfold put_buffer, upd_this, upd_dataChanged, upd_data. simpl.
  by rewrite !insert_insert_eq.
Qed.

Lemma put_buffer_same (u : Z) (a : JsArray.t) (c : Z) (w : World) :
  data (this w) !! u = Some a →
  dataChanged (this w) !! u = Some c →
  put_buffer u (a, c) w = w.
Proof.
  intros Ha Hc. destruct w as [[] ? ? ? ? ?].
  unfold put_buffer, upd_this, upd_dataChanged, upd_data. simpl in *.
  by rewrite !insert_id.
Qed.

Lemma store_exec (u index v : Z) (w : World) (a : JsArray.t) (c : Z) :
  data (this w) !! u = Some a →
  dataChanged (this w) !! u = Some c →
  exec (store u index v) w = put_buffer u (store1 index v (a, c)) w.
Proof.
  intros Ha Hc. unfold store, store1, channels_of. step_m. rewrite Ha. fields.
  destruct (decide _) as [Hne|Heq]; step_m.
  - rewrite Hc. unfold gt_num. destruct (bool_decide _); step_m.
    + reflexivity.
    + unfold put_buffer, upd_this, upd_dataChanged, upd_data. simpl.
      by rewrite (insert_id (dataChanged (this w))).
  - by rewrite put_buffer_same.
Qed.

Lemma store_from_exec (u channel : Z) (vs : list Z) :
  ∀ (i : Z) (w : World) (a : JsArray.t) (c : Z),
    data (this w) !! u = Some a →
    dataChanged (this w) !! u = Some c →
    exec (store_from u channel i vs) w = put_buffer u (stores channel i vs (a, c)) w.
Proof.
  induction vs as [|v rest IH]; intros i w a c Ha Hc; simpl.
  - step_m. by rewrite put_buffer_same.
  - step_m. rewrite (store_exec _ _ _ _ a c) by done.
    destruct (store1 (channel + i - 1) v (a, c)) as [a1 c1] eqn:Hs.
    rewrite (IH _ _ a1 c1).
    + apply put_buffer_twice.
    + apply put_buffer_data.
    + apply put_buffer_dataChanged.
Qed.

(** The world [set] leaves before it decides whether to send. *)
Lemma set_stores (v : value) (channel u : Z) (w : World) :
  let s := store_value v channel (stored w u, or_num (dataChanged (this w) !! u) 0) in
  let w1 := put_buffer u s w in
  set v channel u w =
  if truthy_num (Some s.2) then send u false w1 else (Resolved_null, w1).
Proof.
  intros s w1.
  set (c0 := or_num (dataChanged (this w) !! u) 0) in *.
  set (w0 := upd_this (upd_dataChanged <[u:=c0]>) (exec (ensure_data u) w)).
  assert (Ha : data (this w0) !! u = Some (stored w u)).
  { unfold w0. fields. apply ensure_data_lookup. }
  assert (Hc : dataChanged (this w0) !! u = Some c0).
  { unfold w0. fields. apply lookup_insert_eq. }
  assert (Hw : put_buffer u s w0 = w1).
  { unfold w1, w0, put_buffer. rewrite ensure_data_exec.
    destruct (data (this w) !! u); unfold upd_this, upd_dataChanged, upd_data;
      simpl; by rewrite ?insert_insert_eq. }
  assert (Hcut : ∀ m : M unit, exec m w0 = w1 →
    (ensure_data u;;
     modify (upd_this (upd_dataChanged
       (λ dc, <[u:=or_num (dc !! u) 0]> dc)));;
     m;;
     changed ← reads (λ w, dataChanged (this w) !! u);
     if truthy_num changed then send u false else mret Resolved_null) w =
    if truthy_num (Some s.2) then send u false w1 else (Resolved_null, w1)).
  { intros m Hm.
    assert (Hdc : or_num (dataChanged (this (exec (ensure_data u) w)) !! u) 0 = c0).
    { rewrite ensure_data_exec. by destruct (data (this w) !! u). }
    match goal with |- ?l w = _ => rewrite (method_pair l w) end.
    assert (Hw0 : upd_this (upd_dataChanged (λ dc, <[u:=or_num (dc !! u) 0]> dc))
                    (exec (ensure_data u) w) = w0).
    { unfold w0, upd_this, upd_dataChanged. simpl. by rewrite Hdc. }
    step_m. rewrite Hw0, Hm.
    unfold w1 at 1 3. rewrite put_buffer_dataChanged. fold w1.
    destruct (truthy_num (Some s.2)); [|reflexivity].
    symmetry. apply method_pair. }
  unfold set. apply Hcut. rewrite <- Hw.
  destruct v as [x|[|x rest]]; unfold s, store_value.
  - by apply store_exec.
  - step_m. simpl. by rewrite put_buffer_same.
  - by apply store_from_exec.
Qed.

(** *** The frame of [artdmxPackage] taken apart *)

Lemma artdmxPackage_payload_eq (u : Z) (n : option Z) (w : World) :
  payload (eval (artdmxPackage u n) w) =
  first_channels (stored w u)
    (Z.min (even_up (default 2 n) mod 65536) (JsArray.len (stored w u))).
Proof. by rewrite artdmxPackage_eval. Qed.

Lemma artdmxPackage_length_field (u : Z) (n : option Z) (w : World) :
  length_field (eval (artdmxPackage u n) w) = even_up (default 2 n) mod 65536.
Proof.
  rewrite artdmxPackage_eval. unfold length_field, art_net_id. simpl.
  apply length_bytes.
Qed.

Lemma artdmxPackage_header (u : Z) (n : option Z) (w : World) :
  take 18 (eval (artdmxPackage u n) w) =
  art_net_id ++
  [0; 80; 0; 14; 0; 0; Z.land u 255; Z.land (Z.shiftr u 8) 255;
   Z.land (Z.shiftr (even_up (default 2 n)) 8) 255; Z.land (even_up (default 2 n)) 255].
Proof. by rewrite artdmxPackage_eval. Qed.

Lemma frame_split (frame : list Z) : frame = take 18 frame ++ payload frame.
Proof. unfold payload. by rewrite take_drop. Qed.

(** *** Channel arrays stay whole *)

Lemma stored_ok (w : World) (u : Z) : buffers_ok w → buffer_ok (stored w u).
Proof.
  intros Hok. unfold stored, channels_of. step_m.
  destruct (data (this w) !! u) eqn:Hd; simpl.
  - by apply (Hok u).
  - apply fill_ok.
Qed.

Lemma store1_ok (index v : Z) (s : JsArray.t * Z) :
  buffer_ok s.1 → buffer_ok (store1 index v s).1.
Proof.
  intros Hok. unfold store1. destruct (decide _); [|done]. simpl. by apply put_ok.
Qed.

Lemma stores_ok (channel : Z) (vs : list Z) :
  ∀ (i : Z) (s : JsArray.t * Z), buffer_ok s.1 → buffer_ok (stores channel i vs s).1.
Proof.
  induction vs as [|v rest IH]; intros i s Hok; simpl; [done|].
  apply IH. by apply store1_ok.
Qed.

Lemma store_value_ok (v : value) (channel : Z) (s : JsArray.t * Z) :
  buffer_ok s.1 → buffer_ok (store_value v channel s).1.
Proof. destruct v; simpl; [apply store1_ok|apply stores_ok]. Qed.

Lemma buffers_ok_insert (w w' : World) (u : Z) (a : JsArray.t) :
  buffers_ok w → buffer_ok a →
  data (this w') = <[u:=a]> (data (this w)) →
  buffers_ok w'.
Proof.
  intros Hok Ha Hd u' a'. rewrite Hd.
  destruct (decide (u = u')) as [->|Hne].
  - rewrite lookup_insert_eq. by intros [= <-].
  - rewrite lookup_insert_ne by done. apply Hok.
Qed.

Lemma buffers_ok_same (w w' : World) :
  buffers_ok w → data (this w') = data (this w) → buffers_ok w'.
Proof. intros Hok Hd u a. rewrite Hd. apply Hok. Qed.

Lemma send_data (u : Z) (r : bool) (w : World) :
  data (this (exec (send u r) w)) = data (this w) ∨
  data (this (exec (send u r) w)) = <[u:=stored w u]> (data (this w)).
Proof.
  destruct (is_throttled w u) eqn:Hb.
  - left. rewrite send_busy_exec by done. by rewrite refreshInterval_this.
  - right. destruct (send_free u r w Hb) as (_ & -> & _). reflexivity.
Qed.

Lemma send_ok (u : Z) (r : bool) (w : World) :
  buffers_ok w → buffers_ok (exec (send u r) w).
Proof.
  intros Hok. destruct (send_data u r w) as [Hd|Hd].
  - by apply (buffers_ok_same w).
  - apply (buffers_ok_insert w _ u (stored w u)); auto using stored_ok.
Qed.

Lemma put_buffer_ok (u : Z) (s : JsArray.t * Z) (w : World) :
  buffers_ok w → buffer_ok s.1 → buffers_ok (put_buffer u s w).
Proof. intros Hok Hs. by apply (buffers_ok_insert w _ u s.1). Qed.

Lemma set_ok (v : value) (channel u : Z) (w : World) :
  buffers_ok w → buffers_ok (exec (set v channel u) w).
Proof.
  intros Hok. unfold exec. rewrite set_stores.
  set (s := store_value _ _ _).
  assert (buffers_ok (put_buffer u s w)).
  { apply put_buffer_ok; [done|]. apply store_value_ok. by apply stored_ok. }
  destruct (truthy_num _); [|done]. by apply send_ok.
Qed.

Lemma step_ok (w : World) (a : action) : buffers_ok w → buffers_ok (step w a).
Proof.
  intros Hok. destruct a; simpl.
  - by apply set_ok.
  - by apply send_ok.
  - by apply (buffers_ok_same w).
  - by apply (buffers_ok_same w).
  - apply (buffers_ok_same w); [done|].
    unfold setPort. step_m. by destruct (decide _).
  - by apply (buffers_ok_same w).
  - destruct (timers w !! id); [by apply send_ok|done].
  - destruct (decide _); [|done]. by apply (buffers_ok_same w).
Qed.

Lemma run_ok (acts : list action) :
  ∀ w, buffers_ok w → buffers_ok (run w acts).
Proof.
  induction acts as [|a rest IH]; intros w Hok; simpl; [done|].
  apply IH. by apply step_ok.
Qed.

Lemma constructor_ok (config : option Config) : buffers_ok (constructor config).
Proof. intros u a. simpl. by rewrite lookup_empty. Qed.

(** * The claims *)

(** ** The data frame *)

(** C1. On every object reached from the constructor, for a universe
    [0 ≤ u ≤ 32767] and an even length [2 ≤ L ≤ 512], the data frame has
    [18 + L] octets: the identifier "Art-Net" and a NUL, the opcode
    [0x00, 0x50], the version [0x00, 0x0E], sequence 0, physical 0, SubUni
    [u & 0xFF], Net [(u >> 8) & 0xFF], the length [L] high octet first, and
    then the first [L] stored channels of [u] (each as the octet
    [Buffer.from] makes of it, which is the stored value itself when that
    is an octet). The length field is the number of payload octets. *)
Theorem artdmxPackage_layout
    (config : option Config) (acts : list action) (u L : Z) :
  0 ≤ u ≤ 32767 → 2 ≤ L ≤ 512 → Z.even L = true →
  let w := run (constructor config) acts in
  let frame := eval (artdmxPackage u (Some L)) w in
  length frame = Z.to_nat (18 + L) ∧
  take 8 frame = ascii_codes "Art-Net" ++ [0] ∧
  take 10 (drop 8 frame) =
    [0; 80; 0; 14; 0; 0; Z.land u 255; Z.land (Z.shiftr u 8) 255; L / 256; L mod 256] ∧
  Z.land u 255 = u mod 256 ∧ Z.land (Z.shiftr u 8) 255 = u / 256 ∧
  length_field frame = L ∧
  Z.of_nat (length (payload frame)) = length_field frame ∧
  payload frame = first_channels (stored w u) L ∧
  ∀ i, 0 ≤ i < L →
    ∃ v, JsArray.get (stored w u) i = Some v ∧
         (0 ≤ v ≤ 255 → payload frame !! Z.to_nat i = Some v).
Proof.
  intros Hu HL Heven w frame.
  assert (Hok : buffer_ok (stored w u)).
  { apply stored_ok, run_ok, constructor_ok. }
  destruct Hok as [Hlen Hdef].
  assert (Hup : even_up (default 2 (Some L)) = L) by by apply even_up_even.
  assert (Hcount : Z.min (L mod 65536) (JsArray.len (stored w u)) = L).
  { rewrite Z.mod_small by lia. lia. }
  assert (Hpay : payload frame = first_channels (stored w u) L).
  { unfold frame. by rewrite artdmxPackage_payload_eq, Hup, Hcount. }
  assert (Hhead : take 18 frame =
    art_net_id ++ [0; 80; 0; 14; 0; 0; Z.land u 255; Z.land (Z.shiftr u 8) 255;
                   Z.land (Z.shiftr L 8) 255; Z.land L 255]).
  { unfold frame. by rewrite artdmxPackage_header, Hup. }
  assert (Hfield : length_field frame = L).
  { unfold frame. rewrite artdmxPackage_length_field, Hup. apply Z.mod_small. lia. }
  assert (HhiL : Z.land (Z.shiftr L 8) 255 = L / 256).
  { rewrite high_byte. apply Z.mod_small. split; [apply Z.div_pos; lia|].
    apply Z.div_lt_upper_bound; lia. }
  assert (HhiU : Z.land (Z.shiftr u 8) 255 = u / 256).
  { rewrite high_byte. apply Z.mod_small. split; [apply Z.div_pos; lia|].
    apply Z.div_lt_upper_bound; lia. }
  split_and!.
  - rewrite (frame_split frame), Hhead, Hpay.
    rewrite length_app, length_first_channels. simpl. lia.
  - by rewrite (frame_split frame), Hhead.
  - rewrite (frame_split frame), Hhead. unfold art_net_id. simpl.
    by rewrite take_0, HhiL, (land_255 L).
  - apply land_255.
  - exact HhiU.
  - exact Hfield.
  - rewrite Hfield, Hpay, length_first_channels. lia.
  - exact Hpay.
  - intros i Hi. destruct (Hdef i) as [v Hv]; [lia|]. exists v. split; [done|].
    intros Hoct. rewrite Hpay.
    rewrite lookup_first_channels by done. by rewrite Hv, to_uint8_octet.
Qed.

Lemma artdmxPackage_layout_witness :
  0 ≤ 258 ≤ 32767 ∧ 2 ≤ 4 ≤ 512 ∧ Z.even 4 = true ∧
  let w := run (constructor None) [CallSet (Arr [7; 8; 9]) 1 258] in
  let frame := eval (artdmxPackage 258 (Some 4)) w in
  length frame = Z.to_nat (18 + 4) ∧
  length_field frame = 4 ∧
  payload frame = first_channels (stored w 258) 4.
Proof.
  split; [lia|]. split; [lia|]. split; [reflexivity|]. intros w frame.
  destruct (artdmxPackage_layout None [CallSet (Arr [7; 8; 9]) 1 258] 258 4
              ltac:(lia) ltac:(lia) eq_refl) as (H1 & _ & _ & _ & _ & H2 & _ & H3 & _).
  split; [exact H1|]. split; [exact H2|exact H3].
Defined.

(** C4. The channels read into a data frame are the first [n'] entries of
    the universe's array, where [n'] is the requested length rounded up to
    even, reduced modulo 65536 by the two length octets, and capped by the
    number of entries the array has. For a request of at most 65534 on an
    array of 512 entries that is the even length capped at 512. A universe
    without an array gets a zero-filled one of 512 entries and its frame
    carries zeros only. *)
Theorem artdmxPackage_reads (w : World) (u n : Z) :
  1 ≤ n →
  let frame := eval (artdmxPackage u (Some n)) w in
  let count := Z.min (even_up n mod 65536) (JsArray.len (stored w u)) in
  payload frame = first_channels (stored w u) count ∧
  Z.even (even_up n) = true ∧ n ≤ even_up n ≤ n + 1 ∧
  (n ≤ 65534 → JsArray.len (stored w u) = 512 → count = Z.min (even_up n) 512) ∧
  (data (this w) !! u = None →
     data (this (exec (artdmxPackage u (Some n)) w)) !! u = Some (JsArray.fill 512 0) ∧
     payload frame = replicate (Z.to_nat count) 0).
Proof.
  intros Hn frame count.
  destruct (even_up_spec n ltac:(lia)) as [Heven Hup].
  pose proof (Z.mod_pos_bound (even_up n) 65536 ltac:(lia)) as Hmod.
  assert (Hpay : payload frame = first_channels (stored w u) count).
  { apply artdmxPackage_payload_eq. }
  split_and!; try done; try lia.
  - intros Hsmall Hlen. unfold count. rewrite Hlen, Z.mod_small; [done|].
    split; [lia|]. destruct (decide (even_up n = 65535)) as [Heq|]; [|lia].
    rewrite Heq in Heven. discriminate.
  - intros Hnone.
    assert (Hfill : stored w u = JsArray.fill 512 0).
    { unfold stored, channels_of. step_m. by rewrite Hnone. }
    split.
    + rewrite artdmxPackage_exec, ensure_data_lookup. by rewrite Hfill.
    + rewrite Hpay, Hfill. apply first_channels_fill.
      unfold count. rewrite Hfill. simpl. lia.
Qed.

Lemma artdmxPackage_reads_witness :
  1 ≤ 3 ∧
  payload (eval (artdmxPackage 0 (Some 3)) lit) =
  first_channels (stored lit 0) (Z.min (even_up 3 mod 65536) (JsArray.len (stored lit 0))).
Proof.
  split; [lia|]. apply (artdmxPackage_reads lit 0 3). lia.
Defined.

(** C4 as stated fails: asked for 600 channels of an array that a [set]
    has extended to 600 entries, the encoder returns 600 octets, not 512;
    asked for 65536 channels of a new universe it returns none. *)
Lemma artdmxPackage_reads_counterexample :
  length (payload (eval (artdmxPackage 0 (Some 600)) beyond)) = 600%nat ∧
  length (payload (eval (artdmxPackage 0 (Some 65536)) fresh)) = 0%nat ∧
  Z.min (even_up 600) 512 = 512 ∧ Z.min (even_up 65536) 512 = 512.
Proof. vm_compute. repeat split. Qed.

(** ** Sending *)

(** C2. A [send] for a throttled universe is rejected with the "pending"
    error, leaves every channel array and every high-water mark as they
    were, and hands nothing to the socket. In particular a [set] that
    changes something while its universe is throttled is rejected, but its
    stores and its mark stay. *)
Theorem send_throttled (w : World) (u : Z) (r : bool) :
  is_throttled w u = true →
  eval (send u r) w = Rejected_RangeError "Call already pending" ∧
  data (this (exec (send u r) w)) = data (this w) ∧
  dataChanged (this (exec (send u r) w)) = dataChanged (this w) ∧
  sent (exec (send u r) w) = sent w ∧
  ∀ (v : value) (channel : Z),
    let s := store_value v channel (stored w u, mark w u) in
    s.2 ≠ 0 →
    eval (set v channel u) w = Rejected_RangeError "Call already pending" ∧
    data (this (exec (set v channel u) w)) = <[u:=s.1]> (data (this w)) ∧
    dataChanged (this (exec (set v channel u) w)) = <[u:=s.2]> (dataChanged (this w)) ∧
    sent (exec (set v channel u) w) = sent w.
Proof.
  intros Hb.
  assert (Hsend : ∀ w', is_throttled w' u = true →
    eval (send u r) w' = Rejected_RangeError "Call already pending" ∧
    data (this (exec (send u r) w')) = data (this w') ∧
    dataChanged (this (exec (send u r) w')) = dataChanged (this w') ∧
    sent (exec (send u r) w') = sent w').
  { intros w' Hb'. rewrite send_busy_eval, send_busy_exec by done.
    by rewrite refreshInterval_this, refreshInterval_sent. }
  destruct (Hsend w Hb) as (He & Hd & Hc & Hs). split_and!; try done.
  intros v channel s Hs2.
  assert (Hmark : or_num (dataChanged (this w) !! u) 0 = mark w u).
  { unfold mark, or_num. destruct (dataChanged (this w) !! u) as [c|]; [|done].
    simpl. destruct (Z.eqb_spec c 0); congruence. }
  unfold eval, exec. rewrite set_stores, Hmark. fold s.
  assert (Ht : truthy_num (Some s.2) = true).
  { simpl. by destruct (Z.eqb_spec s.2 0). }
  rewrite Ht. clear Hsend He Hd Hc Hs.
  assert (Hb' : is_throttled (put_buffer u s w) u = true) by exact Hb.
  fold (eval (send u false) (put_buffer u s w)).
  fold (exec (send u false) (put_buffer u s w)).
  rewrite send_busy_eval, send_busy_exec by done.
  by rewrite refreshInterval_this, refreshInterval_sent.
Qed.

Lemma send_throttled_witness :
  is_throttled lit 0 = true ∧
  eval (send 0 false) lit = Rejected_RangeError "Call already pending" ∧
  data (this (exec (send 0 false) lit)) = data (this lit) ∧
  dataChanged (this (exec (send 0 false) lit)) = dataChanged (this lit) ∧
  sent (exec (send 0 false) lit) = sent lit.
Proof.
  split; [reflexivity|].
  destruct (send_throttled lit 0 false eq_refl) as (H1 & H2 & H3 & H4 & _).
  split_and!; assumption.
Defined.

(** C5. A [send] that passes the throttle test hands one frame to the
    socket. Its length field is 512 for a forced refresh or with [sendAll],
    whatever the mark; otherwise, when the mark of the universe is unset or
    lies between 1 and 65534, it is the mark rounded up to even and at
    least 2. The payload has that many octets, or as many as the array has
    entries. *)
Theorem send_length (w : World) (u : Z) (r : bool) :
  is_throttled w u = false →
  ∃ frame,
    sent (exec (send u r) w) =
      sent w ++ [Datagram frame (port (this w)) (host (this w))] ∧
    (r || sendAll (this w) = true → length_field frame = 512) ∧
    (r || sendAll (this w) = false →
     dataChanged (this w) !! u = None ∨ 1 ≤ mark w u ≤ 65534 →
     length_field frame = Z.max 2 (even_up (mark w u))) ∧
    length (payload frame) =
      Z.to_nat (Z.min (length_field frame) (JsArray.len (stored w u))).
Proof.
  intros Hb.
  destruct (send_free u r w Hb) as (_ & _ & Hsent).
  eexists. split; [exact Hsent|].
  rewrite artdmxPackage_length_field, artdmxPackage_payload_eq, length_first_channels.
  set (n := default 2 _).
  split_and!.
  - intros Hfull.
    assert (Hn : n = 512).
    { unfold n. by destruct (sendAll (this w)), r. }
    rewrite Hn. reflexivity.
  - intros Hpart Hm.
    assert (Hn : n = default 2 (dataChanged (this w) !! u)).
    { unfold n. by destruct (sendAll (this w)), r. }
    rewrite Hn. unfold mark in *.
    destruct (dataChanged (this w) !! u) as [c|]; simpl in *.
    + destruct Hm as [|Hc]; [done|].
      destruct (even_up_spec c ltac:(lia)) as [Heven ?].
      destruct (decide (even_up c = 1)) as [Heq|];
        [rewrite Heq in Heven; discriminate|].
      destruct (decide (even_up c = 65535)) as [Heq|];
        [rewrite Heq in Heven; discriminate|].
      rewrite Z.mod_small by lia. lia.
    + reflexivity.
  - reflexivity.
Qed.

Lemma send_length_witness :
  is_throttled idle 0 = false ∧
  dataChanged (this idle) !! 0 = Some 0 ∧
  (∃ frame,
     sent (exec (send 0 true) idle) =
       sent idle ++ [Datagram frame (port (this idle)) (host (this idle))] ∧
     length_field frame = 512) ∧
  is_throttled pending_free 0 = false ∧ mark pending_free 0 = 2 ∧
  (∃ frame,
     sent (exec (send 0 false) pending_free) =
       sent pending_free ++
       [Datagram frame (port (this pending_free)) (host (this pending_free))] ∧
     length_field frame = Z.max 2 (even_up (mark pending_free 0))).
Proof.
  assert (H1 : is_throttled idle 0 = false) by (vm_compute; reflexivity).
  assert (H2 : is_throttled pending_free 0 = false) by (vm_compute; reflexivity).
  assert (H3 : mark pending_free 0 = 2) by (vm_compute; reflexivity).
  split; [exact H1|]. split; [vm_compute; reflexivity|]. split.
  { destruct (send_length idle 0 true H1) as (frame & Hs & Hfull & _).
    exists frame. split; [exact Hs|]. apply Hfull. reflexivity. }
  split; [exact H2|]. split; [exact H3|].
  destruct (send_length pending_free 0 false H2) as (frame & Hs & _ & Hpart & _).
  exists frame. split; [exact Hs|]. apply Hpart; [reflexivity|].
  right. rewrite H3. lia.
Defined.

(** C5 as stated fails: with the mark of universe 0 at 65536 (left there by
    a rejected [set(1, 65536, 0)]) an unforced [send] encodes length 0 and
    no payload, not 65536; and an unforced [send] called with the mark at 0
    encodes length 0 as well, not 2. *)
Lemma send_length_counterexample :
  is_throttled far_beyond 0 = false ∧ sendAll (this far_beyond) = false ∧
  mark far_beyond 0 = 65536 ∧
  Z.max 2 (even_up (mark far_beyond 0)) = 65536 ∧
  (dg_bytes <$> sent (exec (send 0 false) far_beyond)) =
    (dg_bytes <$> sent far_beyond) ++
    [[65; 114; 116; 45; 78; 101; 116; 0; 0; 80; 0; 14; 0; 0; 0; 0; 0; 0]] ∧
  is_throttled idle 0 = false ∧ sendAll (this idle) = false ∧
  dataChanged (this idle) !! 0 = Some 0 ∧
  (dg_bytes <$> sent (exec (send 0 false) idle)) =
    (dg_bytes <$> sent idle) ++
    [[65; 114; 116; 45; 78; 101; 116; 0; 0; 80; 0; 14; 0; 0; 0; 0; 0; 0]].
Proof. vm_compute. repeat split. Qed.

(** ** The encoders and the object *)

(** C8. The trigger encoder leaves the world alone and its octets depend
    on its arguments only. The data encoder changes one thing at most: a
    universe that has no channel array yet gets the zero-filled one. The
    arrays as the methods see them, the marks, the throttle flags and the
    timers stay as they were, and the octets depend only on the arguments
    and on the array of the universe. *)
Theorem encoders_effects (w : World) (u : Z) (n oem key subkey : option Z) :
  exec (triggerPackage oem key subkey) w = w ∧
  (∀ w', eval (triggerPackage oem key subkey) w' =
         eval (triggerPackage oem key subkey) w) ∧
  exec (artdmxPackage u n) w =
    match data (this w) !! u with
    | Some _ => w
    | None => upd_this (upd_data <[u:=JsArray.fill 512 0]>) w
    end ∧
  (∀ u', stored (exec (artdmxPackage u n) w) u' = stored w u') ∧
  dataChanged (this (exec (artdmxPackage u n) w)) = dataChanged (this w) ∧
  throttled (this (exec (artdmxPackage u n) w)) = throttled (this w) ∧
  interval (this (exec (artdmxPackage u n) w)) = interval (this w) ∧
  timers (exec (artdmxPackage u n) w) = timers w ∧
  (∀ w', stored w' u = stored w u →
         eval (artdmxPackage u n) w' = eval (artdmxPackage u n) w).
Proof.
  split_and!.
  - reflexivity.
  - reflexivity.
  - by rewrite artdmxPackage_exec, ensure_data_exec.
  - intros u'. rewrite artdmxPackage_exec. apply ensure_data_stored.
  - rewrite artdmxPackage_exec, ensure_data_exec. by destruct (data (this w) !! u).
  - rewrite artdmxPackage_exec, ensure_data_exec. by destruct (data (this w) !! u).
  - rewrite artdmxPackage_exec, ensure_data_exec. by destruct (data (this w) !! u).
  - rewrite artdmxPackage_exec, ensure_data_exec. by destruct (data (this w) !! u).
  - intros w' Hs. by rewrite !artdmxPackage_eval, Hs.
Qed.

(** C8 as stated fails: encoding a frame for universe 0 of a new object
    stores a channel array for it. *)
Lemma encoders_effects_counterexample :
  data (this fresh) !! 0 = None ∧
  data (this (exec (artdmxPackage 0 (Some 2)) fresh)) !! 0 = Some (JsArray.fill 512 0) ∧
  exec (artdmxPackage 0 (Some 2)) fresh ≠ fresh.
Proof.
  split; [reflexivity|]. split; [reflexivity|].
  intros Heq. apply (f_equal (λ w, data (this w) !! 0)) in Heq. discriminate Heq.
Qed.

(** C9. [setPort] throws exactly when the destination is the broadcast
    address, and then changes nothing; otherwise it stores the port and
    changes nothing else. *)
Theorem setPort_broadcast (w : World) (p : Z) :
  (is_thrown (eval (setPort p) w) ↔ host (this w) = broadcast) ∧
  (is_thrown (eval (setPort p) w) → exec (setPort p) w = w) ∧
  (¬ is_thrown (eval (setPort p) w) →
     port (this (exec (setPort p) w)) = p ∧ same_but_port w (exec (setPort p) w)).
Proof.
  unfold setPort. step_m.
  destruct (decide (host (this w) = broadcast)) as [Hh|Hh]; step_m; simpl.
  - split_and!; [done|done|]. intros []. exact I.
  - split_and!; [tauto|tauto|]. intros _. split; [done|]. by repeat split.
Qed.

(** ** The high-water mark *)

Lemma send_dataChanged (u : Z) (r : bool) (w : World) :
  dataChanged (this (exec (send u r) w)) = dataChanged (this w) ∨
  dataChanged (this (exec (send u r) w)) = <[u:=0]> (dataChanged (this w)).
Proof.
  destruct (is_throttled w u) eqn:Hb.
  - left. rewrite send_busy_exec by done. by rewrite refreshInterval_this.
  - right. destruct (send_free u r w Hb) as (_ & -> & _). reflexivity.
Qed.

Lemma send_mark (u u' : Z) (r : bool) (w : World) :
  mark (exec (send u r) w) u' = mark w u' ∨
  (u' = u ∧ mark (exec (send u r) w) u' = 0).
Proof.
  unfold mark. destruct (send_dataChanged u r w) as [->| ->]; [by left|].
  destruct (decide (u = u')) as [->|Hne].
  - right. by rewrite lookup_insert_eq.
  - left. by rewrite lookup_insert_ne.
Qed.

Lemma store1_mark (index v B : Z) (s : JsArray.t * Z) :
  0 ≤ s.2 ≤ B → index + 1 ≤ B → 0 ≤ (store1 index v s).2 ≤ B.
Proof.
  intros Hs Hi. unfold store1. destruct (decide _); [|done]. simpl.
  destruct (bool_decide_reflect (index + 1 > s.2)); lia.
Qed.

Lemma stores_mark (channel B : Z) (vs : list Z) :
  ∀ (i : Z) (s : JsArray.t * Z),
    0 ≤ i → 0 ≤ s.2 ≤ B → channel + i + Z.of_nat (length vs) - 1 ≤ B →
    0 ≤ (stores channel i vs s).2 ≤ B.
Proof.
  induction vs as [|v rest IH]; intros i s Hi Hs Hlast; simpl in *; [done|].
  apply IH; [lia| |lia]. apply store1_mark; [done|lia].
Qed.

Lemma store_value_mark (v : value) (channel B : Z) (s : JsArray.t * Z) :
  0 ≤ s.2 ≤ B → last_channel v channel ≤ B → 0 ≤ (store_value v channel s).2 ≤ B.
Proof.
  intros Hs Hlast. destruct v as [x|vs]; simpl in *.
  - apply store1_mark; [done|lia].
  - apply stores_mark; [done|done|lia].
Qed.

Lemma or_num_mark (w : World) (u : Z) :
  or_num (dataChanged (this w) !! u) 0 = mark w u.
Proof.
  unfold mark, or_num. destruct (dataChanged (this w) !! u) as [c|]; [|done].
  simpl. destruct (Z.eqb_spec c 0); congruence.
Qed.

Lemma marks_insert (w w' : World) (u c : Z) :
  marks_within_512 w → 0 ≤ c ≤ 512 →
  dataChanged (this w') = <[u:=c]> (dataChanged (this w)) →
  marks_within_512 w'.
Proof.
  intros Hw Hc Hd u' c'. rewrite Hd.
  destruct (decide (u = u')) as [->|Hne].
  - rewrite lookup_insert_eq. by intros [= <-].
  - rewrite lookup_insert_ne by done. apply Hw.
Qed.

Lemma marks_same (w w' : World) :
  marks_within_512 w → dataChanged (this w') = dataChanged (this w) →
  marks_within_512 w'.
Proof. intros Hw Hd u c. rewrite Hd. apply Hw. Qed.

Lemma marks_mark (w : World) (u : Z) : marks_within_512 w → 0 ≤ mark w u ≤ 512.
Proof.
  intros Hw. unfold mark. destruct (dataChanged (this w) !! u) as [c|] eqn:Hc.
  - by apply (Hw u).
  - simpl. lia.
Qed.

Lemma send_marks (u : Z) (r : bool) (w : World) :
  marks_within_512 w → marks_within_512 (exec (send u r) w).
Proof.
  intros Hw. destruct (send_dataChanged u r w) as [Hd|Hd].
  - by apply (marks_same w).
  - by apply (marks_insert w _ u 0).
Qed.

Lemma step_marks (w : World) (a : action) :
  marks_within_512 w → within_512 a → marks_within_512 (step w a).
Proof.
  intros Hw Ha. destruct a; simpl in *.
  - unfold exec. rewrite set_stores, or_num_mark.
    set (s := store_value _ _ _).
    assert (marks_within_512 (put_buffer universe s w)).
    { apply (marks_insert w _ universe s.2); [done| |done].
      apply store_value_mark; [|done]. by apply marks_mark. }
    destruct (truthy_num _); [|done]. by apply send_marks.
  - by apply send_marks.
  - by apply (marks_same w).
  - by apply (marks_same w).
  - apply (marks_same w); [done|]. unfold setPort. step_m. by destruct (decide _).
  - by apply (marks_same w).
  - destruct (timers w !! id); [by apply send_marks|done].
  - destruct (decide _); [|done]. by apply (marks_same w).
Qed.

Lemma run_marks (acts : list action) :
  ∀ w, marks_within_512 w → Forall within_512 acts → marks_within_512 (run w acts).
Proof.
  induction acts as [|a rest IH]; intros w Hw Hacts; simpl; [done|].
  inversion Hacts; subst. apply IH; [|done]. by apply step_marks.
Qed.

(** C3. As long as no [set] addresses a channel position above 512
    (start channel plus number of values, less one), the high-water mark
    of every universe is at most 512 after each operation. *)
Theorem mark_at_most_512
    (config : option Config) (acts : list action) (k : nat) (u : Z) :
  Forall within_512 acts →
  0 ≤ mark (run (constructor config) (take k acts)) u ≤ 512.
Proof.
  intros Hacts. apply marks_mark, run_marks.
  - intros u' c. simpl. by rewrite lookup_empty.
  - by apply Forall_take.
Qed.

Lemma mark_at_most_512_witness :
  Forall within_512 [CallSet (Num 255) 1 0; CallSet (Arr [1; 2; 3]) 510 0] ∧
  0 ≤ mark (run (constructor None)
              (take 2 [CallSet (Num 255) 1 0; CallSet (Arr [1; 2; 3]) 510 0])) 0 ≤ 512.
Proof.
  assert (H : Forall within_512 [CallSet (Num 255) 1 0; CallSet (Arr [1; 2; 3]) 510 0]).
  { repeat constructor; simpl; lia. }
  split; [exact H|]. apply (mark_at_most_512 None _ 2%nat 0 H).
Defined.

(** C3 as stated fails: [set(1, 600, 0)], turned away because universe 0
    is throttled, leaves the mark at 600. *)
Lemma mark_at_most_512_counterexample :
  mark (run (constructor None) [CallSet (Num 255) 1 0; CallSet (Num 1) 600 0]) 0 = 600 ∧
  ¬ mark (run (constructor None) [CallSet (Num 255) 1 0; CallSet (Num 1) 600 0]) 0 ≤ 512.
Proof. split; [reflexivity|]. vm_compute. intros H. apply H. reflexivity. Qed.

(** *** Requests that change nothing *)

Lemma store1_same (index v : Z) (s : JsArray.t * Z) :
  JsArray.get s.1 index = Some v → store1 index v s = s.
Proof. intros Hg. unfold store1. by rewrite decide_False by (by intros ?). Qed.

Lemma stores_same (channel : Z) (vs : list Z) :
  ∀ (i : Z) (s : JsArray.t * Z),
    differs_from s.1 channel i vs = false → stores channel i vs s = s.
Proof.
  induction vs as [|v rest IH]; intros i s Hd; simpl in *; [done|].
  apply orb_false_iff in Hd as [Hhere Hrest].
  apply bool_decide_eq_false in Hhere.
  rewrite store1_same.
  - by apply IH.
  - destruct (decide (JsArray.get s.1 (channel + i - 1) = Some v)); [done|].
    by destruct Hhere.
Qed.

Lemma store_value_same (v : value) (channel : Z) (s : JsArray.t * Z) :
  differing s.1 v channel = false → store_value v channel s = s.
Proof.
  destruct v as [x|vs]; simpl; intros Hd.
  - apply bool_decide_eq_false in Hd. apply store1_same.
    destruct (decide (JsArray.get s.1 (channel - 1) = Some x)); [done|].
    by destruct Hd.
  - by apply stores_same.
Qed.

Lemma put_buffer_other (u u' : Z) (s : JsArray.t * Z) (w : World) :
  u ≠ u' → dataChanged (this (put_buffer u s w)) !! u' = dataChanged (this w) !! u'.
Proof. intros Hne. unfold put_buffer. fields. by rewrite lookup_insert_ne. Qed.

Lemma put_buffer_stored (u : Z) (c : Z) (w : World) (u' : Z) :
  stored (put_buffer u (stored w u, c) w) u' = stored w u'.
Proof.
  unfold stored, channels_of, put_buffer. step_m.
  destruct (decide (u = u')) as [->|Hne].
  - by rewrite lookup_insert_eq.
  - by rewrite lookup_insert_ne.
Qed.

Lemma send_stored (u : Z) (r : bool) (w : World) (u' : Z) :
  stored (exec (send u r) w) u' = stored w u'.
Proof.
  unfold stored at 1, channels_of. step_m.
  destruct (send_data u r w) as [->| ->]; [done|].
  destruct (decide (u = u')) as [->|Hne].
  - by rewrite lookup_insert_eq.
  - by rewrite lookup_insert_ne.
Qed.

(** A [set] that finds nothing to store and nothing pending. *)
Lemma set_nothing (v : value) (channel u : Z) (w : World) :
  differing (stored w u) v channel = false → mark w u = 0 →
  set v channel u w = (Resolved_null, put_buffer u (stored w u, 0) w).
Proof.
  intros Hd Hm. rewrite set_stores, or_num_mark, Hm.
  by rewrite store_value_same.
Qed.

(** A [set] that finds nothing to store but a mark pending: it sends. *)
Lemma set_pending (v : value) (channel u : Z) (w : World) :
  differing (stored w u) v channel = false → mark w u ≠ 0 →
  set v channel u w = send u false (put_buffer u (stored w u, mark w u) w).
Proof.
  intros Hd Hm. rewrite set_stores, or_num_mark.
  rewrite store_value_same by done. simpl.
  by destruct (Z.eqb_spec (mark w u) 0).
Qed.

Lemma step_keeps_zero (u : Z) (w : World) (a : action) :
  dataChanged (this w) !! u = Some 0 →
  stores_differing u w a = false →
  dataChanged (this (step w a)) !! u = Some 0.
Proof.
  intros Hz Hq.
  assert (Hsend : ∀ u' r w', dataChanged (this w') !! u = Some 0 →
            dataChanged (this (exec (send u' r) w')) !! u = Some 0).
  { intros u' r w' Hz'. destruct (send_dataChanged u' r w') as [->| ->]; [done|].
    destruct (decide (u' = u)) as [->|Hne].
    - by rewrite lookup_insert_eq.
    - by rewrite lookup_insert_ne. }
  destruct a; simpl in *.
  - destruct (decide (universe = u)) as [->|Hne].
    + rewrite bool_decide_eq_true_2 in Hq by done. simpl in Hq.
      unfold exec. rewrite set_nothing; [|done|by unfold mark; rewrite Hz].
      cbn [snd]. by rewrite put_buffer_dataChanged.
    + unfold exec. rewrite set_stores.
      set (s := store_value _ _ _).
      assert (Hz1 : dataChanged (this (put_buffer universe s w)) !! u = Some 0).
      { by rewrite put_buffer_other. }
      destruct (truthy_num _); [|done]. by apply Hsend.
  - by apply Hsend.
  - done.
  - done.
  - unfold setPort. step_m. by destruct (decide _).
  - done.
  - destruct (timers w !! id); [by apply Hsend|done].
  - by destruct (decide _).
Qed.

Lemma run_keeps_zero (u : Z) (acts : list action) :
  ∀ w, dataChanged (this w) !! u = Some 0 →
       quiet u w acts = true →
       dataChanged (this (run w acts)) !! u = Some 0.
Proof.
  induction acts as [|a rest IH]; intros w Hz Hq; simpl in *; [done|].
  apply andb_true_iff in Hq as [Hhere Hrest].
  apply negb_true_iff in Hhere.
  apply IH; [|done]. by apply step_keeps_zero.
Qed.

Lemma quiet_take (u : Z) (acts : list action) :
  ∀ (k : nat) (w : World), quiet u w acts = true → quiet u w (take k acts) = true.
Proof.
  induction acts as [|a rest IH]; intros [|k] w Hq; simpl in *; try done.
  apply andb_true_iff in Hq as [Hhere Hrest].
  rewrite Hhere. simpl. by apply IH.
Qed.

(** C6. Once a [send] for a universe has passed the throttle test, the
    mark of that universe is 0, and it is 0 after each further operation as
    long as none of them is a [set] that stores a differing value in a
    channel of that universe. *)
Theorem mark_zero_after_send
    (w : World) (u : Z) (r : bool) (acts : list action) (k : nat) :
  is_throttled w u = false →
  quiet u (exec (send u r) w) acts = true →
  dataChanged (this (run (exec (send u r) w) (take k acts))) !! u = Some 0.
Proof.
  intros Hb Hq. apply run_keeps_zero.
  - destruct (send_free u r w Hb) as (_ & -> & _). fields. apply lookup_insert_eq.
  - by apply quiet_take.
Qed.

Lemma mark_zero_after_send_witness :
  is_throttled pending_free 0 = false ∧
  quiet 0 (exec (send 0 false) pending_free)
    [CallSet (Num 10) 2 0; CallSet (Num 77) 5 1; SleepEnds 0; CallSet (Arr [255; 10]) 1 0;
     TimerFires 3] = true ∧
  dataChanged (this (run (exec (send 0 false) pending_free)
    (take 5 [CallSet (Num 10) 2 0; CallSet (Num 77) 5 1; SleepEnds 0;
             CallSet (Arr [255; 10]) 1 0; TimerFires 3]))) !! 0 = Some 0.
Proof.
  split; [reflexivity|]. split; [reflexivity|].
  apply (mark_zero_after_send pending_free 0 false _ 5%nat); reflexivity.
Defined.

(** C7. A [set] of the value a channel already holds stores nothing and
    never raises the mark: the mark stays, or a send resets it to 0. When
    the mark is 0, so that nothing is pending, the call hands nothing to
    the socket, leaves throttle flags and timers alone and resolves with
    [null]. (With a mark pending the call goes on to [send].) *)
Theorem set_same_value (w : World) (v channel u : Z) :
  JsArray.get (stored w u) (channel - 1) = Some v →
  let w' := exec (set (Num v) channel u) w in
  (∀ u', stored w' u' = stored w u') ∧
  (mark w' u = mark w u ∨ mark w' u = 0) ∧
  (mark w u = 0 →
     eval (set (Num v) channel u) w = Resolved_null ∧
     mark w' u = 0 ∧
     sent w' = sent w ∧
     throttled (this w') = throttled (this w) ∧
     interval (this w') = interval (this w) ∧
     timers w' = timers w).
Proof.
  intros Hg w'.
  assert (Hd : differing (stored w u) (Num v) channel = false).
  { simpl. apply bool_decide_eq_false. by intros ?. }
  destruct (decide (mark w u = 0)) as [Hz|Hnz].
  - assert (Hset := set_nothing _ _ _ _ Hd Hz).
    assert (Hw' : w' = put_buffer u (stored w u, 0) w).
    { unfold w', exec. by rewrite Hset. }
    split_and!.
    + intros u'. rewrite Hw'. apply put_buffer_stored.
    + right. rewrite Hw'. unfold mark. by rewrite put_buffer_dataChanged.
    + intros _. unfold eval. rewrite Hset, Hw'. unfold mark.
      by rewrite put_buffer_dataChanged.
  - assert (Hset := set_pending _ _ _ _ Hd Hnz).
    set (w1 := put_buffer u (stored w u, mark w u) w) in *.
    assert (Hw' : w' = exec (send u false) w1).
    { unfold w', exec. by rewrite Hset. }
    assert (Hm1 : mark w1 u = mark w u).
    { unfold mark at 1. unfold w1. by rewrite put_buffer_dataChanged. }
    split_and!.
    + intros u'. rewrite Hw', send_stored. apply put_buffer_stored.
    + rewrite Hw'. destruct (send_mark u u false w1) as [->|[_ ->]]; auto.
    + done.
Qed.

Lemma set_same_value_witness :
  JsArray.get (stored idle 0) (1 - 1) = Some 255 ∧
  mark idle 0 = 0 ∧
  eval (set (Num 255) 1 0) idle = Resolved_null ∧
  sent (exec (set (Num 255) 1 0) idle) = sent idle.
Proof.
  split; [reflexivity|]. split; [reflexivity|].
  destruct (set_same_value idle 255 1 0 eq_refl) as (_ & _ & H).
  destruct (H eq_refl) as (H1 & _ & H2 & _).
  split; [exact H1|exact H2].
Defined.

(** C7 as stated fails: channel 2 of universe 0 holds 10 and the mark is
    still 2 from the rejected call; repeating [set(10, 2, 0)] is rejected
    again while the universe is throttled, and hands a frame to the socket
    once it is free. *)
Lemma set_same_value_counterexample :
  JsArray.get (stored pending 0) (2 - 1) = Some 10 ∧
  eval (set (Num 10) 2 0) pending = Rejected_RangeError "Call already pending" ∧
  JsArray.get (stored pending_free 0) (2 - 1) = Some 10 ∧
  eval (set (Num 10) 2 0) pending_free = Settles_with_socket ∧
  length (sent pending_free) = 1%nat ∧
  (dg_bytes <$> sent (exec (set (Num 10) 2 0) pending_free)) !! 1%nat =
    Some [65; 114; 116; 45; 78; 101; 116; 0; 0; 80; 0; 14; 0; 0; 0; 0; 0; 2; 255; 10].
Proof. vm_compute. repeat split. Qed.

(** C10. A [set] with an empty array stores nothing: every channel of
    every universe reads as before, and the mark of the universe stays or
    is reset to 0 by a send, while the marks of the others stay. When the
    mark of the universe is 0 or unset, so that nothing is pending, it also
    hands nothing to the socket, leaves throttle flags and timers alone and
    resolves with [null]; all it may do is allocate the zero-filled array
    and set the mark to 0 where they were missing, and where they were
    there the world is exactly as before. With a mark pending the call
    goes on to [send]. *)
Theorem set_empty_array (w : World) (channel u : Z) :
  let w' := exec (set (Arr []) channel u) w in
  (∀ u', stored w' u' = stored w u') ∧
  (mark w' u = mark w u ∨ mark w' u = 0) ∧
  (∀ u', u' ≠ u → mark w' u' = mark w u') ∧
  (mark w u = 0 →
     eval (set (Arr []) channel u) w = Resolved_null ∧
     (∀ u', mark w' u' = mark w u') ∧
     sent w' = sent w ∧
     throttled (this w') = throttled (this w) ∧
     interval (this w') = interval (this w) ∧
     timers w' = timers w ∧
     (is_Some (data (this w) !! u) → is_Some (dataChanged (this w) !! u) → w' = w)) ∧
  (mark w u ≠ 0 →
     set (Arr []) channel u w =
     send u false (put_buffer u (stored w u, mark w u) w)).
Proof.
  intros w'.
  assert (Hd : differing (stored w u) (Arr []) channel = false) by reflexivity.
  assert (Hother : ∀ c u', u' ≠ u →
            mark (put_buffer u (stored w u, c) w) u' = mark w u').
  { intros c u' Hne. unfold mark. by rewrite put_buffer_other. }
  destruct (decide (mark w u = 0)) as [Hz|Hnz].
  - assert (Hset := set_nothing (Arr []) channel u w Hd Hz).
    assert (Hw' : w' = put_buffer u (stored w u, 0) w).
    { unfold w', exec. by rewrite Hset. }
    clearbody w'. subst w'.
    assert (Hmarks : ∀ u', mark (put_buffer u (stored w u, 0) w) u' = mark w u').
    { intros u'. destruct (decide (u' = u)) as [->|Hne]; [|by apply Hother].
      unfold mark at 1. by rewrite put_buffer_dataChanged. }
    split_and!.
    + intros u'. apply put_buffer_stored.
    + left. apply Hmarks.
    + intros u' _. apply Hmarks.
    + intros _. split_and!; try done.
      * unfold eval. by rewrite Hset.
      * intros [a Ha] [c Hc]. apply put_buffer_same.
        -- unfold stored, channels_of. step_m. by rewrite Ha.
        -- unfold mark in Hz. rewrite Hc in Hz. simpl in Hz. by rewrite Hc, Hz.
    + done.
  - assert (Hset := set_pending (Arr []) channel u w Hd Hnz).
    set (w1 := put_buffer u (stored w u, mark w u) w) in *.
    assert (Hw' : w' = exec (send u false) w1).
    { unfold w', exec. by rewrite Hset. }
    clearbody w'. subst w'.
    split_and!.
    + intros u'. rewrite send_stored. apply put_buffer_stored.
    + destruct (send_mark u u false w1) as [->|[_ ->]]; [|by right].
      left. unfold mark at 1, w1. by rewrite put_buffer_dataChanged.
    + intros u' Hne. destruct (send_mark u u' false w1) as [->|[-> _]]; [|done].
      by apply Hother.
    + done.
    + intros _. exact Hset.
Qed.

Lemma set_empty_array_witness :
  mark idle 0 = 0 ∧
  eval (set (Arr []) 1 0) idle = Resolved_null ∧
  exec (set (Arr []) 1 0) idle = idle ∧
  mark pending_free 0 ≠ 0 ∧
  stored (exec (set (Arr []) 1 0) pending_free) 0 = stored pending_free 0.
Proof.
  assert (H0 : mark idle 0 = 0) by (vm_compute; reflexivity).
  assert (H3 : mark pending_free 0 ≠ 0) by (vm_compute; discriminate).
  destruct (set_empty_array idle 1 0) as (_ & _ & _ & H & _).
  destruct (H H0) as (H1 & _ & _ & _ & _ & _ & H2).
  destruct (set_empty_array pending_free 1 0) as (H4 & _).
  split; [exact H0|]. split; [exact H1|]. split.
  { apply H2; eexists; vm_compute; reflexivity. }
  split; [exact H3|exact (H4 0)].
Defined.

(** C10 as stated fails: with the mark of universe 0 still at 2, a [set]
    with an empty array sends the pending channels: a frame goes out, the
    mark drops to 0 and the universe is throttled; while the universe is
    throttled the same call is rejected. *)
Lemma set_empty_array_counterexample :
  mark pending_free 0 = 2 ∧ is_throttled pending_free 0 = false ∧
  length (sent pending_free) = 1%nat ∧
  eval (set (Arr []) 1 0) pending_free = Settles_with_socket ∧
  length (sent (exec (set (Arr []) 1 0) pending_free)) = 2%nat ∧
  mark (exec (set (Arr []) 1 0) pending_free) 0 = 0 ∧
  is_throttled (exec (set (Arr []) 1 0) pending_free) 0 = true ∧
  eval (set (Arr []) 1 0) pending = Rejected_RangeError "Call already pending".
Proof. vm_compute. repeat split. Qed.

Lemma setPort_broadcast_witness :
  host (this fresh) = broadcast ∧ host (this unicast) ≠ broadcast ∧
  is_thrown (eval (setPort 7000) fresh) ∧
  exec (setPort 7000) fresh = fresh ∧
  port (this (exec (setPort 7000) unicast)) = 7000 ∧
  same_but_port unicast (exec (setPort 7000) unicast).
Proof.
  assert (Hb : host (this fresh) = broadcast) by reflexivity.
  assert (Hu : host (this unicast) ≠ broadcast) by discriminate.
  destruct (setPort_broadcast fresh 7000) as (H1 & H2 & _).
  destruct (setPort_broadcast unicast 7000) as (H3 & _ & H4).
  apply H1 in Hb as Hthrown.
  assert (Hnot : ¬ is_thrown (eval (setPort 7000) unicast)).
  { intros Ht. apply Hu, H3, Ht. }
  destruct (H4 Hnot) as [Hp Hsame].
  split_and!; auto.
Defined.

(** * Further properties of the class *)

(** ** Frames on the wire *)

Lemma land_255_octet (x : Z) : is_octet (Z.land x 255).
Proof.
  unfold is_octet. rewrite land_255. pose proof (Z.mod_pos_bound x 256). lia.
Qed.

Lemma triggerPackage_eval (oem key subkey : option Z) (w : World) :
  eval (triggerPackage oem key subkey) w =
  art_net_id ++
  [0; 153; 0; 14; 0; 0;
   Z.land (Z.shiftr (default 65535 oem) 8) 255; Z.land (default 65535 oem) 255;
   Z.land (default 255 key) 255; Z.land (default 0 subkey) 255] ++
  replicate 512 0.
Proof.
  unfold triggerPackage, Buffer_from. step_m.
  rewrite !fmap_app, fmap_replicate.
  assert (Hidem : ∀ x, Z.land (Z.land x 255) 255 = Z.land x 255).
  { intros x. by rewrite <- Z.land_assoc. }
  unfold art_net_id. cbn [fmap list_fmap app to_uint8]. rewrite !Hidem.
  reflexivity.
Qed.

Lemma triggerPackage_length (oem key subkey : option Z) (w : World) :
  length (eval (triggerPackage oem key subkey) w) = 530%nat.
Proof.
  rewrite triggerPackage_eval, !length_app, length_replicate. reflexivity.
Qed.

(** X1. A trigger frame has 530 octets whatever its arguments: the
    identifier, the opcode [0x00, 0x99], the version, two zero octets, the
    OEM code high octet first, the key and the sub-key reduced to an octet
    each, and 512 zero octets. Left-out arguments stand for OEM [0xffff],
    key [0xff], sub-key 0. *)
Theorem triggerPackage_layout (w : World) (oem key subkey : option Z) :
  let frame := eval (triggerPackage oem key subkey) w in
  length frame = 530%nat ∧
  take 8 frame = ascii_codes "Art-Net" ++ [0] ∧
  take 10 (drop 8 frame) =
    [0; 153; 0; 14; 0; 0;
     (default 65535 oem / 256) mod 256; default 65535 oem mod 256;
     default 255 key mod 256; default 0 subkey mod 256] ∧
  drop 18 frame = replicate 512 0 ∧
  Forall is_octet frame ∧
  eval (triggerPackage None None None) w =
    eval (triggerPackage (Some 65535) (Some 255) (Some 0)) w.
Proof.
  intros frame. unfold frame. rewrite !triggerPackage_eval.
  split_and!.
  - rewrite !length_app, length_replicate. reflexivity.
  - reflexivity.
  - unfold art_net_id. cbn [app drop]. cbn [take]. 
    by rewrite high_byte, !land_255.
  - reflexivity.
  - apply Forall_app. split; [|apply Forall_app; split].
    + unfold art_net_id. repeat constructor; unfold is_octet; lia.
    + repeat (constructor; [first [apply land_255_octet | unfold is_octet; lia]|]).
      constructor.
    + apply Forall_replicate. unfold is_octet. lia.
  - reflexivity.
Qed.

(** X2. Every octet of a data frame lies between 0 and 255, whatever was
    stored: a stored number goes out reduced modulo 256, and a hole of an
    extended array goes out as 0. *)
Theorem artdmxPackage_octets (w : World) (u : Z) (n : option Z) :
  let frame := eval (artdmxPackage u n) w in
  Forall is_octet frame ∧
  ∀ i, 0 ≤ i < Z.of_nat (length (payload frame)) →
       payload frame !! Z.to_nat i =
       Some (match JsArray.get (stored w u) i with
             | Some v => v mod 256
             | None => 0
             end).
Proof.
  intros frame. split.
  - unfold frame. rewrite artdmxPackage_eval.
    apply Forall_app. split; [|apply Forall_app; split].
    + unfold art_net_id. repeat constructor; unfold is_octet; lia.
    + repeat (constructor; [first [apply land_255_octet | unfold is_octet; lia]|]).
      constructor.
    + unfold first_channels. apply Forall_fmap, Forall_forall.
      intros i _. apply to_uint8_range.
  - intros i Hi. unfold frame in *.
    rewrite artdmxPackage_payload_eq in *. rewrite length_first_channels in Hi.
    rewrite lookup_first_channels by lia.
    destruct (JsArray.get (stored w u) i) as [v|]; simpl; [|done].
    by rewrite land_255.
Qed.

Lemma artdmxPackage_octets_witness :
  0 ≤ 2 < Z.of_nat (length (payload (eval (artdmxPackage 7 (Some 4)) overdriven))) ∧
  JsArray.get (stored overdriven 7) 2 = Some 300 ∧
  payload (eval (artdmxPackage 7 (Some 4)) overdriven) !! Z.to_nat 2 = Some 44.
Proof.
  assert (H : 0 ≤ 2 < Z.of_nat (length (payload (eval (artdmxPackage 7 (Some 4)) overdriven)))).
  { vm_compute. split; [discriminate|reflexivity]. }
  split; [exact H|]. split; [reflexivity|].
  destruct (artdmxPackage_octets overdriven 7 (Some 4)) as [_ Hp].
  rewrite (Hp 2 H). reflexivity.
Defined.

(** ** [trigger] *)

Lemma trigger_sent (w : World) (oem key subkey : Z) :
  sent (exec (trigger oem key subkey) w) =
  sent w ++ [Datagram (eval (triggerPackage (Some oem) (Some key) (Some subkey)) w)
               (port (this w)) (host (this w))].
Proof. reflexivity. Qed.

(** X3. [trigger] is never throttled: whatever the state of the object, it
    hands exactly one 530-octet frame to the socket, addressed to the
    current host and port, and leaves the object and the timers as they
    were. *)
Theorem trigger_sends (w : World) (oem key subkey : Z) :
  let w' := exec (trigger oem key subkey) w in
  ∃ frame,
    sent w' = sent w ++ [Datagram frame (port (this w)) (host (this w))] ∧
    length frame = 530%nat ∧
    this w' = this w ∧ timers w' = timers w ∧ sleeping w' = sleeping w.
Proof.
  intros w'. exists (eval (triggerPackage (Some oem) (Some key) (Some subkey)) w).
  split_and!; try reflexivity.
Qed.

(** ** The refresh timers *)

Lemma refreshInterval_timers (u : Z) (w : World) :
  timers (exec (refreshInterval u) w) =
  <[next_timer w:=u]>
    (match interval (this w) !! u with
     | Some old => if old =? 0 then timers w else delete old (timers w)
     | None => timers w
     end).
Proof.
  unfold refreshInterval, setInterval, clearInterval. unfold_m. simpl.
  destruct (interval (this w) !! u) as [old|]; simpl; [|done].
  by destruct (old =? 0).
Qed.

Lemma refreshInterval_next_timer (u : Z) (w : World) :
  next_timer (exec (refreshInterval u) w) = next_timer w + 1.
Proof.
  unfold refreshInterval, setInterval, clearInterval. unfold_m. simpl.
  by destruct (truthy_num _), (interval (this w) !! u).
Qed.

Lemma refreshInterval_sleeping (u : Z) (w : World) :
  sleeping (exec (refreshInterval u) w) = sleeping w.
Proof.
  unfold refreshInterval, setInterval, clearInterval. unfold_m. simpl.
  by destruct (truthy_num _), (interval (this w) !! u).
Qed.

Lemma refreshInterval_closed (u : Z) (w : World) :
  closed (exec (refreshInterval u) w) = closed w.
Proof.
  unfold refreshInterval, setInterval, clearInterval. unfold_m. simpl.
  by destruct (truthy_num _), (interval (this w) !! u).
Qed.

(** What [send] does outside the object: the timers are those
    [refreshInterval] leaves, and an accepted send parks itself. *)
Lemma send_runtime (u : Z) (r : bool) (w : World) :
  timers (exec (send u r) w) = timers (exec (refreshInterval u) w) ∧
  next_timer (exec (send u r) w) = next_timer w + 1 ∧
  closed (exec (send u r) w) = closed w ∧
  sleeping (exec (send u r) w) =
    (if is_throttled w u then sleeping w else sleeping w ++ [u]).
Proof.
  destruct (is_throttled w u) eqn:Hb.
  - rewrite send_busy_exec by done.
    by rewrite refreshInterval_next_timer, refreshInterval_closed,
      refreshInterval_sleeping.
  - unfold is_throttled in Hb.
    unfold send, socket_send, sleep. step_m.
    rewrite !refreshInterval_this. fields. rewrite Hb. step_m.
    rewrite !artdmxPackage_exec, !ensure_data_exec. fields.
    rewrite ?refreshInterval_this. fields.
    destruct (data (this w) !! u); fields;
      by rewrite refreshInterval_next_timer, refreshInterval_closed,
        refreshInterval_sleeping.
Qed.

Lemma send_interval (u : Z) (r : bool) (w : World) :
  interval (this (exec (send u r) w)) = <[u:=next_timer w]> (interval (this w)).
Proof.
  destruct (is_throttled w u) eqn:Hb.
  - rewrite send_busy_exec by done. by rewrite refreshInterval_this.
  - destruct (send_free u r w Hb) as (_ & -> & _). reflexivity.
Qed.

Lemma send_throttled_map (u : Z) (r : bool) (w : World) :
  throttled (this (exec (send u r) w)) =
  if is_throttled w u then throttled (this w) else <[u:=true]> (throttled (this w)).
Proof.
  destruct (is_throttled w u) eqn:Hb.
  - rewrite send_busy_exec by done. by rewrite refreshInterval_this.
  - destruct (send_free u r w Hb) as (_ & -> & _). reflexivity.
Qed.

(** What [send] does to the timers, accepted or not. *)
Lemma send_swaps_timer (w : World) (u : Z) (r : bool) :
  let w' := exec (send u r) w in
  interval (this w') !! u = Some (next_timer w) ∧
  timers w' !! next_timer w = Some u ∧
  next_timer w' = next_timer w + 1 ∧
  (∀ old, interval (this w) !! u = Some old → old ≠ 0 → old ≠ next_timer w →
          timers w' !! old = None) ∧
  (∀ id, id ≠ next_timer w → interval (this w) !! u ≠ Some id →
         timers w' !! id = timers w !! id) ∧
  (∀ u', u' ≠ u → interval (this w') !! u' = interval (this w) !! u').
Proof.
  intros w'. unfold w'.
  destruct (send_runtime u r w) as (Ht & Hn & _ & _).
  rewrite Ht, Hn, send_interval, refreshInterval_timers.
  split_and!.
  - apply lookup_insert_eq.
  - apply lookup_insert_eq.
  - reflexivity.
  - intros old Ho Hnz Hne. rewrite Ho.
    rewrite lookup_insert_ne by done.
    destruct (Z.eqb_spec old 0); [done|]. apply lookup_delete_eq.
  - intros id Hne Hold. rewrite lookup_insert_ne by done.
    destruct (interval (this w) !! u) as [old|]; [|done].
    destruct (old =? 0); [done|].
    apply lookup_delete_ne. intros ->. by apply Hold.
  - intros u' Hne. by rewrite lookup_insert_ne.
Qed.

(** X4. Every [send] re-arms the refresh timer of its universe, whether
    it is accepted or rejected as pending: a fresh timer is armed and
    recorded for the universe, the timer recorded before is cancelled, and
    no other timer is touched. *)
Theorem send_rearms (w : World) (u : Z) (r : bool) :
  let w' := exec (send u r) w in
  interval (this w') !! u = Some (next_timer w) ∧
  timers w' !! next_timer w = Some u ∧
  next_timer w' = next_timer w + 1 ∧
  (∀ old, interval (this w) !! u = Some old → old ≠ 0 → old ≠ next_timer w →
          timers w' !! old = None) ∧
  (∀ id, id ≠ next_timer w → interval (this w) !! u ≠ Some id →
         timers w' !! id = timers w !! id) ∧
  (∀ u', u' ≠ u → interval (this w') !! u' = interval (this w) !! u').
Proof. apply send_swaps_timer. Qed.

(** *** One timer for each universe *)

Lemma timers_ok_rearm (u : Z) (w w' : World) :
  timers_ok w →
  interval (this w') = <[u:=next_timer w]> (interval (this w)) →
  timers w' = timers (exec (refreshInterval u) w) →
  next_timer w' = next_timer w + 1 →
  timers_ok w'.
Proof.
  intros (Hpos & Harmed & Hids & Hinj) Hi Ht Hn.
  unfold timers_ok. rewrite Hi, Ht, Hn, refreshInterval_timers.
  split_and!.
  - lia.
  - intros id u'. destruct (decide (id = next_timer w)) as [->|Hne].
    + rewrite lookup_insert_eq. intros [= <-]. apply lookup_insert_eq.
    + rewrite lookup_insert_ne by done. intros Hid.
      assert (Hold : timers w !! id = Some u' ∧ interval (this w) !! u ≠ Some id).
      { destruct (interval (this w) !! u) as [old|] eqn:Ho; [|done].
        destruct (Z.eqb_spec old 0) as [->|Hnz].
        - split; [done|]. intros [= <-].
          apply Harmed, Hids in Hid. lia.
        - destruct (decide (old = id)) as [->|Hne'].
          + by rewrite lookup_delete_eq in Hid.
          + rewrite lookup_delete_ne in Hid by done. split; [done|]. congruence. }
      destruct Hold as [Hid' Hnot].
      destruct (decide (u = u')) as [->|Hu].
      * by apply Harmed in Hid'.
      * rewrite lookup_insert_ne by done. by apply Harmed.
  - intros u' id. destruct (decide (u = u')) as [->|Hu].
    + rewrite lookup_insert_eq. intros [= <-].
      lia.
    + rewrite lookup_insert_ne by done. intros Hid. apply Hids in Hid. lia.
  - intros u1 u2 id.
    destruct (decide (u = u1)) as [E1|H1], (decide (u = u2)) as [E2|H2];
      subst; rewrite ?lookup_insert_eq, ?lookup_insert_ne by done; try done.
    + intros [= <-] H. apply Hids in H. lia.
    + intros H [= <-]. apply Hids in H. lia.
    + apply Hinj.
Qed.

Lemma timers_ok_shrink (w w' : World) :
  timers_ok w →
  interval (this w') = interval (this w) →
  next_timer w' = next_timer w →
  (∀ id u, timers w' !! id = Some u → timers w !! id = Some u) →
  timers_ok w'.
Proof.
  intros (Hpos & Harmed & Hids & Hinj) Hi Hn Ht.
  unfold timers_ok. rewrite Hi, Hn. split_and!; auto.
Qed.

Lemma send_timers_ok (u : Z) (r : bool) (w : World) :
  timers_ok w → timers_ok (exec (send u r) w).
Proof.
  intros Hok. destruct (send_runtime u r w) as (Ht & Hn & _ & _).
  apply (timers_ok_rearm u w); auto using send_interval.
Qed.

Lemma cancel_lookup (l : list (Z * Z)) (t : gmap Z Z) (id u : Z) :
  foldr (λ (e : Z * Z) t,
           if decide (0 ≤ e.1 < 4294967295) then delete e.2 t else t) t l !! id
    = Some u ↔
  t !! id = Some u ∧ ∀ e, e ∈ l → array_index e.1 → e.2 ≠ id.
Proof.
  induction l as [|e rest IH]; simpl.
  - split; [|tauto]. intros H. split; [done|]. intros e He. by apply elem_of_nil in He.
  - destruct (decide (0 ≤ e.1 < 4294967295)) as [Hin|Hout].
    + destruct (decide (e.2 = id)) as [<-|Hne].
      * rewrite lookup_delete_eq. split; [done|].
        intros [_ H]. exfalso. apply (H e); [left|done|done].
      * rewrite lookup_delete_ne by done. rewrite IH. split.
        -- intros [Ht H]. split; [done|]. intros e' He'.
           apply elem_of_cons in He' as [->|He']; [done|]. by apply H.
        -- intros [Ht H]. split; [done|]. intros e' He'. apply H. by right.
    + rewrite IH. split.
      * intros [Ht H]. split; [done|]. intros e' He'.
        apply elem_of_cons in He' as [->|He']; [done|]. by apply H.
      * intros [Ht H]. split; [done|]. intros e' He'. apply H. by right.
Qed.

Lemma close_timers (w : World) (id u : Z) :
  timers (exec close w) !! id = Some u ↔
  timers w !! id = Some u ∧
  ∀ u', interval (this w) !! u' = Some id → ¬ array_index u'.
Proof.
  unfold close. step_m. rewrite cancel_lookup. split.
  - intros [Ht H]. split; [done|]. intros u' Hu' Hidx.
    apply (H (u', id)); [|done|done]. by apply elem_of_map_to_list.
  - intros [Ht H]. split; [done|]. intros [u' id'] He Hidx Heq. simpl in *. subst.
    apply elem_of_map_to_list in He. by apply (H u').
Qed.

Lemma close_others (w : World) :
  this (exec close w) = this w ∧ next_timer (exec close w) = next_timer w ∧
  sent (exec close w) = sent w ∧ sleeping (exec close w) = sleeping w ∧
  closed (exec close w) = true.
Proof. unfold close. step_m. by repeat split. Qed.

Lemma set_world (v : value) (channel u : Z) (w : World) :
  ∃ s, exec (set v channel u) w = put_buffer u s w ∨
       exec (set v channel u) w = exec (send u false) (put_buffer u s w).
Proof.
  unfold exec at 1 2. rewrite set_stores.
  set (s := store_value _ _ _). exists s.
  destruct (truthy_num _); [by right|by left].
Qed.

Lemma step_timers_ok (w : World) (a : action) :
  timers_ok w → timers_ok (step w a).
Proof.
  intros Hok. destruct a; simpl.
  - destruct (set_world v channel universe w) as [s [-> | ->]].
    + by apply (timers_ok_shrink w).
    + apply send_timers_ok. by apply (timers_ok_shrink w).
  - by apply send_timers_ok.
  - by apply (timers_ok_shrink w).
  - by apply (timers_ok_shrink w).
  - apply (timers_ok_shrink w); try done; unfold setPort; step_m;
      by destruct (decide _).
  - destruct (close_others w) as (Ht & Hn & _).
    apply (timers_ok_shrink w); [done|by rewrite Ht|done|].
    intros id u Hid. by apply close_timers in Hid as [? _].
  - destruct (timers w !! id); [by apply send_timers_ok|done].
  - destruct (decide _); [|done]. by apply (timers_ok_shrink w).
Qed.

Lemma run_timers_ok (acts : list action) :
  ∀ w, timers_ok w → timers_ok (run w acts).
Proof.
  induction acts as [|a rest IH]; intros w Hok; simpl; [done|].
  apply IH. by apply step_timers_ok.
Qed.

Lemma constructor_timers_ok (config : option Config) : timers_ok (constructor config).
Proof.
  unfold timers_ok. simpl. split_and!; [lia|..]; intros *; by rewrite lookup_empty.
Qed.

(** X5. On every object a run reaches, a universe has at most one armed
    refresh timer, and it is the one recorded in [interval] for it: sends
    postpone the refresh, they never pile timers up. *)
Theorem one_timer_per_universe
    (config : option Config) (acts : list action) (id1 id2 u : Z) :
  let w := run (constructor config) acts in
  timers w !! id1 = Some u → timers w !! id2 = Some u →
  id1 = id2 ∧ interval (this w) !! u = Some id1.
Proof.
  intros w H1 H2.
  destruct (run_timers_ok acts _ (constructor_timers_ok config)) as (_ & Harmed & _).
  apply Harmed in H1 as H1'. apply Harmed in H2 as H2'.
  fold w in H1', H2'. split; [congruence|done].
Qed.

Lemma one_timer_per_universe_witness :
  timers (run (constructor None)
            [CallSet (Num 255) 1 0; CallSet (Num 10) 2 0; SleepEnds 0]) !! 2 = Some 0 ∧
  (2 = 2 ∧
   interval (this (run (constructor None)
                     [CallSet (Num 255) 1 0; CallSet (Num 10) 2 0; SleepEnds 0])) !! 0
     = Some 2).
Proof.
  assert (H : timers (run (constructor None)
            [CallSet (Num 255) 1 0; CallSet (Num 10) 2 0; SleepEnds 0]) !! 2 = Some 0).
  { vm_compute. reflexivity. }
  split; [exact H|].
  exact (one_timer_per_universe None
           [CallSet (Num 255) 1 0; CallSet (Num 10) 2 0; SleepEnds 0] 2 2 0 H H).
Defined.

(** X6. [close] cancels exactly the timers of the universes that are
    array indices (0 to 2^32 - 2): a timer survives it if and only if its
    universe lies outside that range, since the loop runs up to
    [interval.length]. After [close] on an object whose universes are all
    array indices no timer is armed, and whatever the runtime does then,
    nothing more is handed to the socket. *)
Theorem close_cancels (config : option Config) (acts : list action) :
  let w := run (constructor config) acts in
  let w' := exec close w in
  closed w' = true ∧ sent w' = sent w ∧
  (∀ id u, timers w' !! id = Some u ↔ timers w !! id = Some u ∧ ¬ array_index u) ∧
  ((∀ u, is_Some (interval (this w) !! u) → array_index u) →
   timers w' = ∅ ∧
   ∀ evs, Forall from_runtime evs → sent (run w' evs) = sent w).
Proof.
  intros w w'.
  destruct (run_timers_ok acts _ (constructor_timers_ok config))
    as (_ & Harmed & _ & Hinj). fold w in Harmed, Hinj.
  destruct (close_others w) as (Hthis & Hnext & Hsent & Hsleep & Hclosed).
  assert (Hkeep : ∀ id u,
    timers w' !! id = Some u ↔ timers w !! id = Some u ∧ ¬ array_index u).
  { intros id u. unfold w'. rewrite close_timers. split.
    - intros [Ht H]. split; [done|]. by apply (H u), Harmed.
    - intros [Ht Hidx]. split; [done|]. intros u' Hu'.
      by rewrite (Hinj u' u id Hu' (Harmed _ _ Ht)). }
  split_and!; try done.
  intros Hall.
  assert (Hempty : timers w' = ∅).
  { apply map_eq. intros id. rewrite lookup_empty.
    destruct (timers w' !! id) as [u|] eqn:Hid; [|done].
    apply Hkeep in Hid as [Hid Hidx]. exfalso. apply Hidx, Hall.
    rewrite (Harmed _ _ Hid). by eexists. }
  split; [done|].
  intros evs Hevs. rewrite <- Hsent. fold w'.
  assert (Hgen : ∀ w1, timers w1 = ∅ → sent (run w1 evs) = sent w1).
  { clear -Hevs. induction evs as [|a rest IH]; intros w1 He; simpl; [done|].
    inversion Hevs as [|? ? Ha Hrest]; subst.
    destruct a; simpl in Ha; try done; simpl.
    - rewrite He, lookup_empty. by apply IH.
    - destruct (decide _); [|by apply IH].
      rewrite IH; [done|done|done]. }
  by apply Hgen.
Qed.

Lemma close_cancels_witness :
  (∀ u, is_Some (interval (this (run (constructor None)
           [CallSet (Num 255) 1 0; CallSet (Num 10) 2 0; SleepEnds 0])) !! u) →
        array_index u) ∧
  timers (exec close (run (constructor None)
            [CallSet (Num 255) 1 0; CallSet (Num 10) 2 0; SleepEnds 0])) = ∅ ∧
  Forall from_runtime [TimerFires 2; SleepEnds 0; TimerFires 1] ∧
  sent (run (exec close (run (constructor None)
               [CallSet (Num 255) 1 0; CallSet (Num 10) 2 0; SleepEnds 0]))
          [TimerFires 2; SleepEnds 0; TimerFires 1]) =
    sent (run (constructor None)
            [CallSet (Num 255) 1 0; CallSet (Num 10) 2 0; SleepEnds 0]).
Proof.
  assert (Hall : ∀ u, is_Some (interval (this (run (constructor None)
           [CallSet (Num 255) 1 0; CallSet (Num 10) 2 0; SleepEnds 0])) !! u) →
        array_index u).
  { assert (Hi : interval (this (run (constructor None)
           [CallSet (Num 255) 1 0; CallSet (Num 10) 2 0; SleepEnds 0])) =
           <[0:=2]> (∅ : gmap Z Z)).
    { vm_compute. reflexivity. }
    rewrite Hi. intros u [id Hid]. destruct (decide (u = 0)) as [->|Hne].
    - unfold array_index. lia.
    - exfalso. rewrite lookup_insert_ne in Hid by done. by rewrite lookup_empty in Hid. }
  assert (Hevs : Forall from_runtime [TimerFires 2; SleepEnds 0; TimerFires 1]).
  { repeat constructor. }
  destruct (close_cancels None
              [CallSet (Num 255) 1 0; CallSet (Num 10) 2 0; SleepEnds 0])
    as (_ & _ & _ & H).
  destruct (H Hall) as [Hempty Hquiet].
  split; [exact Hall|]. split; [exact Hempty|]. split; [exact Hevs|].
  exact (Hquiet _ Hevs).
Defined.

(** ** The throttle *)

Lemma remove_first_elem (x y : Z) (q : list Z) :
  NoDup q → (y ∈ remove_first x q ↔ y ∈ q ∧ y ≠ x).
Proof.
  induction q as [|z q IH]; simpl; intros Hnd.
  - split; [by intros ?%elem_of_nil|by intros [?%elem_of_nil _]].
  - apply list.NoDup_cons in Hnd as [Hz Hnd].
    destruct (decide (x = z)) as [->|Hne].
    + rewrite elem_of_cons. split.
      * intros Hy. split; [by right|]. by intros ->.
      * intros [[->|Hy] Hyz]; done.
    + rewrite !elem_of_cons, IH by done. split.
      * intros [->|[Hy Hyx]]; [split; [by left|done]|split; [by right|done]].
      * intros [[->|Hy] Hyx]; [by left|by right].
Qed.

Lemma remove_first_NoDup (x : Z) (q : list Z) : NoDup q → NoDup (remove_first x q).
Proof.
  induction q as [|z q IH]; simpl; intros Hnd; [done|].
  apply list.NoDup_cons in Hnd as [Hz Hnd].
  destruct (decide (x = z)); [done|].
  apply list.NoDup_cons. split; [|by apply IH].
  rewrite remove_first_elem by done. tauto.
Qed.

Lemma throttle_ok_same (w w' : World) :
  throttle_ok w →
  sleeping w' = sleeping w → throttled (this w') = throttled (this w) →
  throttle_ok w'.
Proof.
  intros [Hnd Hiff] Hs Ht. unfold throttle_ok, is_throttled in *.
  by rewrite Hs, Ht.
Qed.

Lemma send_throttle_ok (u : Z) (r : bool) (w : World) :
  throttle_ok w → throttle_ok (exec (send u r) w).
Proof.
  intros Hok. destruct (send_runtime u r w) as (_ & _ & _ & Hs).
  pose proof (send_throttled_map u r w) as Ht.
  destruct (is_throttled w u) eqn:Hb.
  - by apply (throttle_ok_same w).
  - destruct Hok as [Hnd Hiff]. unfold throttle_ok, is_throttled in *.
    rewrite Hs, Ht. split.
    + apply list.NoDup_app. split_and!; [done| |apply NoDup_singleton].
      intros x Hx ->%list_elem_of_singleton.
      apply Hiff in Hx. congruence.
    + intros u'. rewrite elem_of_app, list_elem_of_singleton.
      destruct (decide (u = u')) as [->|Hne].
      * rewrite lookup_insert_eq. simpl. tauto.
      * rewrite lookup_insert_ne by done. rewrite Hiff. split; [|tauto].
        intros [?|?]; [done|congruence].
Qed.

Lemma step_throttle_ok (w : World) (a : action) :
  throttle_ok w → throttle_ok (step w a).
Proof.
  intros Hok. destruct a; simpl.
  - destruct (set_world v channel universe w) as [s [-> | ->]].
    + by apply (throttle_ok_same w).
    + apply send_throttle_ok. by apply (throttle_ok_same w).
  - by apply send_throttle_ok.
  - by apply (throttle_ok_same w).
  - by apply (throttle_ok_same w).
  - apply (throttle_ok_same w); try done; unfold setPort; step_m;
      by destruct (decide _).
  - destruct (close_others w) as (Ht & _ & _ & Hs & _).
    apply (throttle_ok_same w); [done|done|by rewrite Ht].
  - destruct (timers w !! id); [by apply send_throttle_ok|done].
  - destruct (decide _) as [Hin|]; [|done].
    destruct Hok as [Hnd Hiff]. unfold throttle_ok, is_throttled in *.
    unfold resume_send. step_m. split.
    + by apply remove_first_NoDup.
    + intros u'. rewrite remove_first_elem by done.
      destruct (decide (universe = u')) as [->|Hne].
      * rewrite lookup_insert_eq. simpl. split; [tauto|done].
      * rewrite lookup_insert_ne by done. rewrite Hiff. split; [tauto|].
        intros ?. split; [done|congruence].
Qed.

Lemma run_throttle_ok (acts : list action) :
  ∀ w, throttle_ok w → throttle_ok (run w acts).
Proof.
  induction acts as [|a rest IH]; intros w Hok; simpl; [done|].
  apply IH. by apply step_throttle_ok.
Qed.

Lemma constructor_throttle_ok (config : option Config) :
  throttle_ok (constructor config).
Proof.
  split; simpl; [apply NoDup_nil_2|]. intros u.
  unfold is_throttled. simpl. rewrite lookup_empty. simpl.
  split; [by intros ?%elem_of_nil|done].
Qed.

(** X7. On every object a run reaches, at most one [send] is in flight
    for a universe: no universe has two sends parked in their 25 ms sleep,
    a universe is throttled exactly while its send is parked, a [send]
    is rejected exactly then, and once the sleep ends the universe is free
    again. *)
Theorem one_send_in_flight
    (config : option Config) (acts : list action) (u : Z) (r : bool) :
  let w := run (constructor config) acts in
  NoDup (sleeping w) ∧
  (u ∈ sleeping w ↔ is_throttled w u = true) ∧
  (u ∈ sleeping w ↔ is_rejected (eval (send u r) w)) ∧
  (u ∉ sleeping w ↔ eval (send u r) w = Settles_with_socket) ∧
  is_throttled (step w (SleepEnds u)) u = false.
Proof.
  intros w.
  pose proof (run_throttle_ok acts _ (constructor_throttle_ok config)) as Hok.
  fold w in Hok.
  pose proof (step_throttle_ok w (SleepEnds u) Hok) as [Hnd' Hiff'].
  destruct Hok as [Hnd Hiff].
  split_and!.
  - done.
  - apply Hiff.
  - rewrite Hiff. destruct (is_throttled w u) eqn:Hb.
    + rewrite send_busy_eval by done. simpl. tauto.
    + destruct (send_free u r w Hb) as (-> & _). simpl. split; [done|tauto].
  - rewrite Hiff. destruct (is_throttled w u) eqn:Hb.
    + rewrite send_busy_eval by done. split; [by intros []|done].
    + destruct (send_free u r w Hb) as (-> & _). split; [done|]. by intros _ ?.
  - simpl. destruct (decide (u ∈ sleeping w)) as [Hin|Hout].
    + unfold is_throttled, resume_send. step_m. by rewrite lookup_insert_eq.
    + destruct (is_throttled w u) eqn:Hb; [|done]. by apply Hiff in Hb.
Qed.

(** ** What [set] stores *)

Lemma store1_get (index v j : Z) (s : JsArray.t * Z) :
  JsArray.get (store1 index v s).1 j =
  if decide (j = index) then Some v else JsArray.get s.1 j.
Proof.
  unfold store1. destruct (decide (JsArray.get s.1 index ≠ Some v)) as [Hne|Heq].
  - unfold JsArray.get, JsArray.put. simpl.
    destruct (decide (j = index)) as [->|Hj].
    + apply lookup_insert_eq.
    + by rewrite lookup_insert_ne.
  - destruct (decide (j = index)) as [->|Hj]; [|done].
    destruct (decide (JsArray.get s.1 index = Some v)); [done|by destruct Heq].
Qed.

Lemma stores_get (channel j : Z) (vs : list Z) :
  ∀ (i : Z) (s : JsArray.t * Z),
    JsArray.get (stores channel i vs s).1 j =
    if decide (channel + i - 1 ≤ j)
    then match vs !! Z.to_nat (j - (channel + i - 1)) with
         | Some v => Some v
         | None => JsArray.get s.1 j
         end
    else JsArray.get s.1 j.
Proof.
  induction vs as [|v rest IH]; intros i s; simpl.
  - by destruct (decide _).
  - rewrite IH, store1_get.
    destruct (decide (channel + i - 1 ≤ j)) as [Hle|Hgt].
    + destruct (decide (j = channel + i - 1)) as [->|Hne].
      * rewrite decide_False by lia. by rewrite Z.sub_diag.
      * rewrite decide_True by lia.
        replace (Z.to_nat (j - (channel + i - 1)))
          with (S (Z.to_nat (j - (channel + (i + 1) - 1)))) by lia.
        reflexivity.
    + rewrite decide_False by lia. by rewrite decide_False by lia.
Qed.

Lemma store_value_get (v : value) (channel j : Z) (s : JsArray.t * Z) :
  JsArray.get (store_value v channel s).1 j =
  match requested v channel j with
  | Some x => Some x
  | None => JsArray.get s.1 j
  end.
Proof.
  destruct v as [x|vs]; simpl.
  - rewrite store1_get. by destruct (decide _).
  - rewrite stores_get. rewrite Z.add_0_r. by destruct (decide _).
Qed.

Lemma put_buffer_stored_eq (u : Z) (s : JsArray.t * Z) (w : World) :
  stored (put_buffer u s w) u = s.1.
Proof.
  unfold stored, channels_of, put_buffer. step_m. by rewrite lookup_insert_eq.
Qed.

Lemma put_buffer_stored_ne (u u' : Z) (s : JsArray.t * Z) (w : World) :
  u ≠ u' → stored (put_buffer u s w) u' = stored w u'.
Proof.
  intros Hne. unfold stored, channels_of, put_buffer. step_m.
  by rewrite lookup_insert_ne.
Qed.

Lemma put_buffer_mark (u : Z) (s : JsArray.t * Z) (w : World) :
  mark (put_buffer u s w) u = s.2.
Proof. unfold mark. by rewrite put_buffer_dataChanged. Qed.

(** The array and the mark [set] leaves, and what it returns. *)
Lemma set_result (v : value) (channel u : Z) (w : World) :
  let s := store_value v channel (stored w u, mark w u) in
  let w' := exec (set v channel u) w in
  stored w' u = s.1 ∧
  (mark w' u = s.2 ∨ mark w' u = 0) ∧
  eval (set v channel u) w = set_outcome w v channel u.
Proof.
  intros s w'. unfold w', set_outcome, eval, exec.
  rewrite set_stores, or_num_mark. fold s.
  destruct (truthy_num (Some s.2)).
  - fold (exec (send u false) (put_buffer u s w)).
    fold (eval (send u false) (put_buffer u s w)).
    split_and!.
    + by rewrite send_stored, put_buffer_stored_eq.
    + destruct (send_mark u u false (put_buffer u s w)) as [->|[_ ->]]; [|by right].
      left. apply put_buffer_mark.
    + change (is_throttled w u) with (is_throttled (put_buffer u s w) u).
      destruct (is_throttled (put_buffer u s w) u) eqn:Hb.
      * by rewrite send_busy_eval.
      * by destruct (send_free u false _ Hb) as (-> & _).
  - simpl. split_and!; [apply put_buffer_stored_eq|left; apply put_buffer_mark|done].
Qed.

(** X8. Whatever the throttle says, [set] stores what it is asked to:
    for channel numbers that JavaScript computes exactly (the positions
    from [channel - 1] to the last one addressed are safe integers), every
    addressed position of the universe's array afterwards holds the
    requested value, unclamped, and every other position holds what it
    held before. A rejected [set] has stored its values all the same. *)
Theorem set_stores_request (w : World) (v : value) (channel u j : Z) :
  safe_integer (channel - 1) → safe_integer (last_channel v channel) →
  JsArray.get (stored (exec (set v channel u) w) u) j =
  match requested v channel j with
  | Some x => Some x
  | None => JsArray.get (stored w u) j
  end.
Proof.
  intros _ _.
  destruct (set_result v channel u w) as (-> & _ & _).
  apply store_value_get.
Qed.

Lemma set_stores_request_witness :
  safe_integer (3 - 1) ∧ safe_integer (last_channel (Arr [7; 300]) 3) ∧
  is_throttled lit 0 = true ∧
  JsArray.get (stored (exec (set (Arr [7; 300]) 3 0) lit) 0) 3 = Some 300 ∧
  JsArray.get (stored (exec (set (Arr [7; 300]) 3 0) lit) 0) 0 =
    JsArray.get (stored lit 0) 0.
Proof.
  assert (H1 : safe_integer (3 - 1)) by (unfold safe_integer; lia).
  assert (H2 : safe_integer (last_channel (Arr [7; 300]) 3)).
  { unfold safe_integer. simpl. lia. }
  split; [exact H1|]. split; [exact H2|]. split; [vm_compute; reflexivity|].
  split.
  - exact (set_stores_request lit (Arr [7; 300]) 3 0 3 H1 H2).
  - exact (set_stores_request lit (Arr [7; 300]) 3 0 0 H1 H2).
Defined.

(** *** Universes do not interfere *)

Lemma set_other (v : value) (channel u u' : Z) (w : World) :
  u ≠ u' →
  let w' := exec (set v channel u) w in
  stored w' u' = stored w u' ∧ mark w' u' = mark w u' ∧
  is_throttled w' u' = is_throttled w u' ∧
  interval (this w') !! u' = interval (this w) !! u'.
Proof.
  intros Hne w'. unfold w'.
  destruct (set_world v channel u w) as [s [-> | ->]].
  - split_and!; [by apply put_buffer_stored_ne| |done|done].
    unfold mark. by rewrite put_buffer_other.
  - set (w1 := put_buffer u s w).
    assert (H1 : stored w1 u' = stored w u') by by apply put_buffer_stored_ne.
    assert (H2 : mark w1 u' = mark w u').
    { unfold mark, w1. by rewrite put_buffer_other. }
    split_and!.
    + by rewrite send_stored.
    + destruct (send_mark u u' false w1) as [->|[-> _]]; done.
    + unfold is_throttled. rewrite send_throttled_map.
      destruct (is_throttled w1 u); [done|]. by rewrite lookup_insert_ne.
    + rewrite send_interval. by rewrite lookup_insert_ne.
Qed.

(** X9. A [set] on one universe leaves every other universe alone: its
    channels, its mark, its throttle flag and its recorded timer are
    unchanged, and a [set] on the other universe returns what it would have
    returned before. A rejected call on one universe never blocks
    another. *)
Theorem universes_independent
    (w : World) (v v' : value) (channel channel' u u' : Z) :
  u ≠ u' →
  let w' := exec (set v channel u) w in
  stored w' u' = stored w u' ∧ mark w' u' = mark w u' ∧
  is_throttled w' u' = is_throttled w u' ∧
  interval (this w') !! u' = interval (this w) !! u' ∧
  eval (set v' channel' u') w' = eval (set v' channel' u') w.
Proof.
  intros Hne w'.
  destruct (set_other v channel u u' w Hne) as (Hs & Hm & Ht & Hi).
  split_and!; try done.
  destruct (set_result v' channel' u' w') as (_ & _ & ->).
  destruct (set_result v' channel' u' w) as (_ & _ & ->).
  unfold set_outcome. fold w' in Hs, Hm, Ht. by rewrite Hs, Hm, Ht.
Qed.

Lemma universes_independent_witness :
  0 ≠ 1 ∧
  is_throttled lit 0 = true ∧
  eval (set (Num 10) 2 1) (exec (set (Num 10) 2 0) lit) = eval (set (Num 10) 2 1) lit ∧
  eval (set (Num 10) 2 1) lit = Settles_with_socket.
Proof.
  split; [discriminate|]. split; [reflexivity|].
  destruct (universes_independent lit (Num 10) (Num 10) 2 2 0 1 ltac:(discriminate))
    as (_ & _ & _ & _ & H).
  split; [exact H|reflexivity].
Defined.

(** ** What an accepted [send] transmits *)

Lemma even_up_512 (L : Z) : 1 ≤ L ≤ 512 → L ≤ even_up L ≤ 512 ∧ 2 ≤ even_up L.
Proof.
  intros HL. destruct (even_up_spec L ltac:(lia)) as [Heven Hup].
  destruct (decide (even_up L = 513)) as [Heq|]; [rewrite Heq in Heven; discriminate|].
  destruct (decide (even_up L = 1)) as [Heq|]; [rewrite Heq in Heven; discriminate|].
  lia.
Qed.

Lemma artdmxPackage_length (u : Z) (n : option Z) (w : World) :
  length (eval (artdmxPackage u n) w) =
  (18 + length (payload (eval (artdmxPackage u n) w)))%nat.
Proof.
  rewrite (frame_split (eval (artdmxPackage u n) w)) at 1.
  rewrite length_app. by rewrite artdmxPackage_header.
Qed.

(** An accepted [send] asked for [L] channels, [1 ≤ L ≤ 512], of an array
    that has its 512 channels. *)
Lemma accepted_frame (w : World) (u : Z) (r : bool) (L : Z) :
  is_throttled w u = false →
  buffer_ok (stored w u) →
  (if (if sendAll (this w) then true else r)
   then Some 512 else dataChanged (this w) !! u) = Some L →
  1 ≤ L ≤ 512 →
  ∃ frame,
    sent (exec (send u r) w) =
      sent w ++ [Datagram frame (port (this w)) (host (this w))] ∧
    length frame = Z.to_nat (18 + even_up L) ∧
    length_field frame = even_up L ∧
    payload frame = first_channels (stored w u) (even_up L) ∧
    eval (send u r) w = Settles_with_socket ∧
    mark (exec (send u r) w) u = 0 ∧
    is_throttled (exec (send u r) w) u = true.
Proof.
  intros Hb [Hlen _] Hn HL.
  destruct (send_free u r w Hb) as (Hev & Hthis & Hsent).
  rewrite Hn in Hsent.
  destruct (even_up_512 L HL) as [Hup Hlow].
  assert (Hcount : Z.min (even_up (default 2 (Some L)) mod 65536)
                     (JsArray.len (stored w u)) = even_up L).
  { simpl. rewrite Z.mod_small by lia. lia. }
  assert (Hpay : payload (eval (artdmxPackage u (Some L)) w) =
                 first_channels (stored w u) (even_up L)).
  { by rewrite artdmxPackage_payload_eq, Hcount. }
  eexists. split; [exact Hsent|]. split_and!.
  - rewrite artdmxPackage_length, Hpay, length_first_channels. lia.
  - rewrite artdmxPackage_length_field. simpl. apply Z.mod_small. lia.
  - exact Hpay.
  - exact Hev.
  - unfold mark. rewrite Hthis. fields. by rewrite lookup_insert_eq.
  - unfold is_throttled. rewrite Hthis. fields. by rewrite lookup_insert_eq.
Qed.

Lemma run_reaches (config : option Config) (acts : list action) :
  Forall within_512 acts →
  let w := run (constructor config) acts in
  buffers_ok w ∧ marks_within_512 w ∧ timers_ok w ∧ throttle_ok w.
Proof.
  intros Hacts w. split_and!.
  - apply run_ok, constructor_ok.
  - apply run_marks; [|done]. intros u c. simpl. by rewrite lookup_empty.
  - apply run_timers_ok, constructor_timers_ok.
  - apply run_throttle_ok, constructor_throttle_ok.
Qed.

Lemma store1_differs (index v : Z) (s : JsArray.t * Z) :
  JsArray.get s.1 index ≠ Some v →
  store1 index v s = (JsArray.put s.1 index v, Z.max s.2 (index + 1)).
Proof.
  intros Hne. unfold store1. rewrite decide_True by done. f_equal.
  destruct (bool_decide_reflect (index + 1 > s.2)); lia.
Qed.

(** X10. On an object reached by calls that stay within channel 512, a
    [set] of a differing value to channel [c] of a free universe is
    transmitted at once: it hands one frame to the socket, addressed to the
    current host and port, whose length is the mark raised to [c] and
    rounded up to even (512 with [sendAll]), whose octet for channel [c] is
    the new value modulo 256 and whose other octets are the stored
    channels. The mark is reset and the universe is throttled. *)
Theorem set_transmits
    (config : option Config) (acts : list action) (v c u : Z) :
  Forall within_512 acts →
  let w := run (constructor config) acts in
  is_throttled w u = false →
  1 ≤ c ≤ 512 →
  JsArray.get (stored w u) (c - 1) ≠ Some v →
  let w' := exec (set (Num v) c u) w in
  let L := if sendAll (this w) then 512 else even_up (Z.max (mark w u) c) in
  eval (set (Num v) c u) w = Settles_with_socket ∧
  c ≤ L ≤ 512 ∧
  mark w' u = 0 ∧ is_throttled w' u = true ∧
  ∃ frame,
    sent w' = sent w ++ [Datagram frame (port (this w)) (host (this w))] ∧
    length frame = Z.to_nat (18 + L) ∧
    length_field frame = L ∧
    payload frame !! Z.to_nat (c - 1) = Some (v mod 256) ∧
    ∀ j, 0 ≤ j < L → j ≠ c - 1 →
         payload frame !! Z.to_nat j = Some (to_uint8 (JsArray.get (stored w u) j)).
Proof.
  intros Hacts w Hb Hc Hne w' L.
  destruct (run_reaches config acts Hacts) as (Hbuf & Hmarks & _ & _). fold w in Hbuf, Hmarks.
  pose proof (marks_mark w u Hmarks) as Hm.
  set (s := store_value (Num v) c (stored w u, mark w u)).
  assert (Hs : s = (JsArray.put (stored w u) (c - 1) v, Z.max (mark w u) c)).
  { unfold s. simpl. rewrite store1_differs by done. simpl. do 2 f_equal. lia. }
  set (w1 := put_buffer u s w).
  assert (Hset : set (Num v) c u w = send u false w1).
  { rewrite set_stores, or_num_mark. fold s. fold w1.
    rewrite Hs. simpl. by destruct (Z.eqb_spec (Z.max (mark w u) c) 0); [lia|]. }
  assert (Hst : stored w1 u = s.1) by apply put_buffer_stored_eq.
  set (L0 := if sendAll (this w) then 512 else Z.max (mark w u) c).
  assert (HL0 : 1 ≤ L0 ≤ 512) by (unfold L0; destruct (sendAll (this w)); lia).
  assert (HL : even_up L0 = L).
  { unfold L0, L. by destruct (sendAll (this w)). }
  destruct (even_up_512 L0 HL0) as [Hup _]. rewrite HL in Hup.
  assert (HcL : c ≤ L0) by (unfold L0; destruct (sendAll (this w)); lia).
  destruct (accepted_frame w1 u false L0) as (frame & Hsent & Hlen & Hfield & Hpay & Hev & Hmark & Hthr).
  - exact Hb.
  - rewrite Hst, Hs. simpl. apply put_ok. by apply stored_ok.
  - unfold w1. rewrite put_buffer_dataChanged. change (sendAll (this (put_buffer u s w)))
      with (sendAll (this w)). unfold L0. rewrite Hs. simpl.
    by destruct (sendAll (this w)).
  - exact HL0.
  - rewrite HL in *.
    unfold w', eval, exec. rewrite Hset.
    fold (eval (send u false) w1). fold (exec (send u false) w1).
    split_and!; try done; try lia.
    exists frame. split_and!; try done.
    + rewrite Hpay, lookup_first_channels by lia.
      rewrite Hst, Hs. simpl. unfold JsArray.get, JsArray.put. simpl.
      rewrite lookup_insert_eq. simpl. by rewrite land_255.
    + intros j Hj Hjc. rewrite Hpay, lookup_first_channels by lia.
      rewrite Hst, Hs. simpl. unfold JsArray.get, JsArray.put. simpl.
      by rewrite lookup_insert_ne.
Qed.

Lemma set_transmits_witness :
  Forall within_512 [CallSet (Num 255) 1 0; SleepEnds 0] ∧
  is_throttled (run (constructor None) [CallSet (Num 255) 1 0; SleepEnds 0]) 0 = false ∧
  1 ≤ 5 ≤ 512 ∧
  JsArray.get (stored (run (constructor None) [CallSet (Num 255) 1 0; SleepEnds 0]) 0)
    (5 - 1) ≠ Some 300 ∧
  eval (set (Num 300) 5 0) (run (constructor None) [CallSet (Num 255) 1 0; SleepEnds 0])
    = Settles_with_socket ∧
  mark (exec (set (Num 300) 5 0)
          (run (constructor None) [CallSet (Num 255) 1 0; SleepEnds 0])) 0 = 0.
Proof.
  assert (H1 : Forall within_512 [CallSet (Num 255) 1 0; SleepEnds 0]).
  { repeat constructor; simpl; lia. }
  assert (H0 : is_throttled
                 (run (constructor None) [CallSet (Num 255) 1 0; SleepEnds 0]) 0 = false).
  { vm_compute. reflexivity. }
  assert (H2 : JsArray.get
                 (stored (run (constructor None) [CallSet (Num 255) 1 0; SleepEnds 0]) 0)
                 (5 - 1) ≠ Some 300).
  { vm_compute. discriminate. }
  destruct (set_transmits None [CallSet (Num 255) 1 0; SleepEnds 0] 300 5 0
              H1 H0 ltac:(lia) H2) as (Hev & _ & Hm & _).
  split; [exact H1|]. split; [exact H0|]. split; [lia|]. split; [exact H2|].
  split; [exact Hev|exact Hm].
Defined.

Lemma step_sleep_ends (w : World) (u : Z) :
  u ∈ sleeping w →
  step w (SleepEnds u) = exec (resume_send u) (upd_sleeping (remove_first u) w).
Proof. intros Hin. simpl. by rewrite decide_True. Qed.

Lemma step_timer_fires (w : World) (id u : Z) :
  timers w !! id = Some u → step w (TimerFires id) = exec (send u true) w.
Proof. intros Hid. simpl. by rewrite Hid. Qed.

(** X11. A value whose [set] was rejected is not lost. On an object
    reached by calls that stay within channel 512, a [set] of a differing
    value to channel [c] of a throttled universe is rejected, but the value
    is stored and the mark raised to at least [c]; and once the sleep has
    ended, the next [send] of that universe (the refresh timer's, or the one
    a repeated [set] turns into) hands the socket a frame that reaches
    channel [c] and carries the value there. *)
Theorem rejected_set_is_flushed
    (config : option Config) (acts : list action) (v c u : Z) (r : bool) :
  Forall within_512 acts →
  let w := run (constructor config) acts in
  is_throttled w u = true →
  1 ≤ c ≤ 512 →
  JsArray.get (stored w u) (c - 1) ≠ Some v →
  let w1 := exec (set (Num v) c u) w in
  let w2 := step w1 (SleepEnds u) in
  eval (set (Num v) c u) w = Rejected_RangeError "Call already pending" ∧
  sent w2 = sent w ∧
  mark w2 u = Z.max (mark w u) c ∧
  set (Num v) c u w2 = send u false w2 ∧
  eval (send u r) w2 = Settles_with_socket ∧
  ∃ frame,
    sent (exec (send u r) w2) =
      sent w ++ [Datagram frame (port (this w)) (host (this w))] ∧
    c ≤ length_field frame ≤ 512 ∧
    payload frame !! Z.to_nat (c - 1) = Some (v mod 256).
Proof.
  intros Hacts w Hb Hc Hne w1 w2.
  destruct (run_reaches config acts Hacts) as (Hbuf & Hmarks & _ & Hthr).
  fold w in Hbuf, Hmarks, Hthr.
  pose proof (marks_mark w u Hmarks) as Hm.
  set (s := store_value (Num v) c (stored w u, mark w u)).
  assert (Hs : s = (JsArray.put (stored w u) (c - 1) v, Z.max (mark w u) c)).
  { unfold s. simpl. rewrite store1_differs by done. simpl. do 2 f_equal. lia. }
  set (w0 := put_buffer u s w).
  assert (Hset : set (Num v) c u w = send u false w0).
  { rewrite set_stores, or_num_mark. fold s. fold w0.
    rewrite Hs. simpl. by destruct (Z.eqb_spec (Z.max (mark w u) c) 0); [lia|]. }
  assert (Hb0 : is_throttled w0 u = true) by exact Hb.
  assert (Hw1 : w1 = exec (refreshInterval u) w0).
  { unfold w1, exec at 1. rewrite Hset. fold (exec (send u false) w0).
    by apply send_busy_exec. }
  assert (Hin : u ∈ sleeping w1).
  { rewrite Hw1, refreshInterval_sleeping. by apply Hthr. }
  assert (Hw2 : w2 = exec (resume_send u) (upd_sleeping (remove_first u) w1)).
  { unfold w2. by apply step_sleep_ends. }
  clearbody w2 w1 w.
  assert (Hthis : this w2 =
    upd_throttled <[u:=false]> (upd_interval <[u:=next_timer w]> (this w0))).
  { rewrite Hw2. unfold resume_send. step_m. by rewrite Hw1, refreshInterval_this. }
  assert (Hsent : sent w2 = sent w).
  { rewrite Hw2. unfold resume_send. step_m. by rewrite Hw1, refreshInterval_sent. }
  assert (Hd2 : data (this w2) !! u = Some s.1).
  { rewrite Hthis. fields. apply put_buffer_data. }
  assert (Hc2 : dataChanged (this w2) !! u = Some s.2).
  { rewrite Hthis. fields. apply put_buffer_dataChanged. }
  assert (Hst2 : stored w2 u = s.1).
  { unfold stored, channels_of. step_m. by rewrite Hd2. }
  assert (Hm2 : mark w2 u = s.2) by (unfold mark; by rewrite Hc2).
  assert (Hb2 : is_throttled w2 u = false).
  { unfold is_throttled. rewrite Hthis. fields. by rewrite lookup_insert_eq. }
  assert (Hget : JsArray.get s.1 (c - 1) = Some v).
  { rewrite Hs. unfold JsArray.get, JsArray.put. simpl. apply lookup_insert_eq. }
  set (L0 := if (if sendAll (this w) then true else r) then 512 else Z.max (mark w u) c).
  assert (HL0 : c ≤ L0 ≤ 512).
  { unfold L0. destruct (if sendAll (this w) then true else r); lia. }
  destruct (even_up_512 L0 ltac:(lia)) as [Hup _].
  destruct (accepted_frame w2 u r L0)
    as (frame & Hsent' & _ & Hfield & Hpay & Hev & _ & _).
  - exact Hb2.
  - rewrite Hst2, Hs. simpl. apply put_ok. by apply stored_ok.
  - rewrite Hc2, Hthis. fields. unfold L0. rewrite Hs. simpl.
    by destruct (if sendAll (this w) then true else r).
  - lia.
  - split_and!.
    + unfold eval. rewrite Hset. fold (eval (send u false) w0).
      by apply send_busy_eval.
    + exact Hsent.
    + rewrite Hm2, Hs. reflexivity.
    + rewrite set_pending.
      * rewrite Hst2, Hm2. by rewrite (put_buffer_same u s.1 s.2 w2).
      * simpl. rewrite Hst2. apply bool_decide_eq_false. by intros ?.
      * rewrite Hm2, Hs. simpl. lia.
    + exact Hev.
    + exists frame. split_and!.
      * rewrite Hsent', Hsent, Hthis. reflexivity.
      * lia.
      * lia.
      * rewrite Hpay, lookup_first_channels by lia.
        rewrite Hst2, Hget. simpl. by rewrite land_255.
Qed.

Lemma rejected_set_is_flushed_witness :
  Forall within_512 [CallSet (Num 255) 1 0] ∧
  is_throttled (run (constructor None) [CallSet (Num 255) 1 0]) 0 = true ∧
  1 ≤ 2 ≤ 512 ∧
  JsArray.get (stored (run (constructor None) [CallSet (Num 255) 1 0]) 0) (2 - 1)
    ≠ Some 10 ∧
  eval (set (Num 10) 2 0) (run (constructor None) [CallSet (Num 255) 1 0]) =
    Rejected_RangeError "Call already pending" ∧
  eval (send 0 true)
    (step (exec (set (Num 10) 2 0) (run (constructor None) [CallSet (Num 255) 1 0]))
          (SleepEnds 0)) = Settles_with_socket.
Proof.
  assert (H1 : Forall within_512 [CallSet (Num 255) 1 0]).
  { repeat constructor; simpl; lia. }
  assert (H0 : is_throttled (run (constructor None) [CallSet (Num 255) 1 0]) 0 = true).
  { vm_compute. reflexivity. }
  assert (H2 : JsArray.get (stored (run (constructor None) [CallSet (Num 255) 1 0]) 0)
                 (2 - 1) ≠ Some 10).
  { vm_compute. discriminate. }
  destruct (rejected_set_is_flushed None [CallSet (Num 255) 1 0] 10 2 0 true
              H1 H0 ltac:(lia) H2) as (Ha & _ & _ & _ & Hd & _).
  split; [exact H1|]. split; [exact H0|]. split; [lia|]. split; [exact H2|].
  split; [exact Ha|exact Hd].
Defined.

(** X12. When a refresh timer goes off for a free universe of an object a
    run has reached, the whole universe is transmitted: one frame of 530
    octets with length 512 and all 512 stored channels, to the current host
    and port. The timer that went off is cancelled and a fresh one is armed
    for the universe. For a throttled universe nothing is transmitted, but
    the timer is replaced in the same way. *)
Theorem refresh_sends_all_channels
    (config : option Config) (acts : list action) (id u : Z) :
  let w := run (constructor config) acts in
  timers w !! id = Some u →
  let w' := step w (TimerFires id) in
  timers w' !! id = None ∧ timers w' !! next_timer w = Some u ∧
  (∀ u', stored w' u' = stored w u') ∧
  (is_throttled w u = true → sent w' = sent w) ∧
  (is_throttled w u = false →
   ∃ frame,
     sent w' = sent w ++ [Datagram frame (port (this w)) (host (this w))] ∧
     length frame = 530%nat ∧ length_field frame = 512 ∧
     payload frame = first_channels (stored w u) 512).
Proof.
  intros w Hid w'.
  pose proof (run_ok acts _ (constructor_ok config)) as Hbuf.
  destruct (run_timers_ok acts _ (constructor_timers_ok config))
    as (_ & Harmed & Hids & _).
  fold w in Hbuf, Harmed, Hids.
  assert (Hw' : w' = exec (send u true) w).
  { unfold w'. by apply step_timer_fires. }
  clearbody w' w.
  destruct (send_swaps_timer w u true) as (_ & Hnew & _ & Hold & _).
  pose proof (Harmed _ _ Hid) as Hrec. pose proof (Hids _ _ Hrec) as Hrange.
  rewrite Hw'. split_and!.
  - apply Hold; [done|lia|lia].
  - exact Hnew.
  - intros u'. apply send_stored.
  - intros Hb. rewrite send_busy_exec by done. apply refreshInterval_sent.
  - intros Hb.
    destruct (accepted_frame w u true 512 Hb)
      as (frame & Hsent & Hlen & Hfield & Hpay & _).
    + by apply stored_ok.
    + by destruct (sendAll (this w)).
    + lia.
    + exists frame. by split_and!.
Qed.

Lemma refresh_sends_all_channels_witness :
  timers (run (constructor None)
            [CallSet (Num 255) 1 0; CallSet (Num 10) 2 0; SleepEnds 0]) !! 2 = Some 0 ∧
  timers (step (run (constructor None)
                  [CallSet (Num 255) 1 0; CallSet (Num 10) 2 0; SleepEnds 0])
               (TimerFires 2)) !! 2 = None.
Proof.
  assert (H0 : timers (run (constructor None)
            [CallSet (Num 255) 1 0; CallSet (Num 10) 2 0; SleepEnds 0]) !! 2 = Some 0).
  { vm_compute. reflexivity. }
  destruct (refresh_sends_all_channels None
              [CallSet (Num 255) 1 0; CallSet (Num 10) 2 0; SleepEnds 0] 2 0 H0)
    as (H1 & _).
  split; [exact H0|exact H1].
Defined.

(** ** Destination and construction *)

(** X13. After [setHost] to a host other than the broadcast address,
    [setPort] succeeds, nothing but the destination has changed, and what
    is handed to the socket from then on, by [trigger] or by an accepted
    [send], is addressed to the new host and port. Switching back to the
    broadcast address locks the port again: [setPort] throws and the port
    stays. *)
Theorem setHost_then_setPort (w : World) (h : string) (p q : Z) :
  h ≠ broadcast →
  let w' := exec (setPort p) (exec (setHost h) w) in
  eval (setPort p) (exec (setHost h) w) = Returned ∧
  w' = upd_this (λ o, with_port p (with_host h o)) w ∧
  (∀ oem key subkey, ∃ frame,
     sent (exec (trigger oem key subkey) w') = sent w ++ [Datagram frame p h]) ∧
  (∀ u r, is_throttled w u = false → ∃ frame,
     sent (exec (send u r) w') = sent w ++ [Datagram frame p h]) ∧
  is_thrown (eval (setPort q) (exec (setHost broadcast) w')) ∧
  port (this (exec (setPort q) (exec (setHost broadcast) w'))) = p.
Proof.
  intros Hh w'.
  assert (Hw' : w' = upd_this (λ o, with_port p (with_host h o)) w).
  { unfold w', setPort, setHost. step_m. rewrite decide_False by done. by step_m. }
  clearbody w'. subst w'. split_and!.
  - unfold setPort, setHost. step_m. rewrite decide_False by done. by step_m.
  - reflexivity.
  - intros oem key subkey.
    eexists. apply (trigger_sent (upd_this (λ o, with_port p (with_host h o)) w)).
  - intros u r Hb.
    destruct (send_free u r (upd_this (λ o, with_port p (with_host h o)) w) Hb)
      as (_ & _ & Hs).
    eexists. exact Hs.
  - unfold setPort, setHost. step_m. rewrite decide_True by done. by step_m.
  - unfold setPort, setHost. step_m. rewrite decide_True by done. by step_m.
Qed.

Lemma setHost_then_setPort_witness :
  "10.0.0.7"%string ≠ broadcast ∧
  eval (setPort 7000) (exec (setHost "10.0.0.7") fresh) = Returned ∧
  is_thrown (eval (setPort 1)
               (exec (setHost broadcast)
                  (exec (setPort 7000) (exec (setHost "10.0.0.7") fresh)))).
Proof.
  assert (H : "10.0.0.7"%string ≠ broadcast) by discriminate.
  destruct (setHost_then_setPort fresh "10.0.0.7" 7000 1 H) as (H1 & _ & _ & _ & H2 & _).
  split; [exact H|]. split; [exact H1|exact H2].
Defined.

(** X14. The constructor never leaves a falsy setting: a host, port or
    refresh period that is given and is not empty or 0 is taken as it is,
    and one that is left out, empty or 0 gets its default (the broadcast
    address, 6454, 4000). A new object has no channel arrays, marks,
    throttle flags or timers and has sent nothing; and as long as its host
    is the broadcast address, [setPort] throws and changes nothing. *)
Theorem constructor_defaults (config : option Config) :
  let w := constructor config in
  let c := default no_config config in
  host (this w) ≠ EmptyString ∧ port (this w) ≠ 0 ∧ refresh (this w) ≠ 0 ∧
  (∀ h, cfg_host c = Some h → h ≠ EmptyString → host (this w) = h) ∧
  (cfg_host c = None ∨ cfg_host c = Some EmptyString → host (this w) = broadcast) ∧
  (∀ p, cfg_port c = Some p → p ≠ 0 → port (this w) = p) ∧
  (cfg_port c = None ∨ cfg_port c = Some 0 → port (this w) = 6454) ∧
  (∀ r, cfg_refresh c = Some r → r ≠ 0 → refresh (this w) = r) ∧
  (cfg_refresh c = None ∨ cfg_refresh c = Some 0 → refresh (this w) = 4000) ∧
  sendAll (this w) = default false (cfg_sendAll c) ∧
  data (this w) = ∅ ∧ dataChanged (this w) = ∅ ∧ throttled (this w) = ∅ ∧
  interval (this w) = ∅ ∧ timers w = ∅ ∧ sent w = [] ∧
  (host (this w) = broadcast →
   ∀ p, is_thrown (eval (setPort p) w) ∧ exec (setPort p) w = w).
Proof.
  intros w c.
  assert (Hlocked : host (this w) = broadcast →
            ∀ p, is_thrown (eval (setPort p) w) ∧ exec (setPort p) w = w).
  { intros Hb p. unfold setPort. step_m. rewrite decide_True by done. by step_m. }
  revert Hlocked. generalize (setPort : Z → M outcome). intros sp Hlocked.
  unfold w in *. simpl in *. fold c in Hlocked. fold c. clear w.
  destruct (cfg_host c) as [h|], (cfg_port c) as [p|], (cfg_refresh c) as [r|];
    unfold or_string, or_num in *;
    repeat match goal with
           | |- context [decide (?x = EmptyString)] => destruct (decide (x = EmptyString))
           | |- context [?x =? 0] => destruct (Z.eqb_spec x 0)
           end;
    split_and!; try done; try (intros ? [=]; congruence);
    try (intros [[=]|[=]]; congruence).
Qed.

(** ** A channel below the first *)

(** X15. Channels are counted from 1, but [set] does not check: on a
    universe with nothing pending, a [set] to channel 0 or below resolves
    with [null] and hands nothing to the socket. The value lands in a
    property of the array outside its channels: the array keeps its
    length, no frame ever carries the value, and the mark stays 0. *)
Theorem set_below_first_channel (w : World) (v c u : Z) :
  c ≤ 0 → mark w u = 0 →
  let w' := exec (set (Num v) c u) w in
  eval (set (Num v) c u) w = Resolved_null ∧
  sent w' = sent w ∧ mark w' u = 0 ∧
  JsArray.get (stored w' u) (c - 1) = Some v ∧
  JsArray.len (stored w' u) = JsArray.len (stored w u) ∧
  ∀ n, first_channels (stored w' u) n = first_channels (stored w u) n.
Proof.
  intros Hc Hm w'.
  set (s := store_value (Num v) c (stored w u, mark w u)).
  assert (Hs2 : s.2 = 0).
  { unfold s. simpl. unfold store1. simpl. destruct (decide _); [|done]. simpl.
    rewrite Hm. destruct (bool_decide_reflect (c - 1 + 1 > 0)); [lia|done]. }
  assert (Hlen : JsArray.len s.1 = JsArray.len (stored w u)).
  { unfold s. simpl. unfold store1. simpl. destruct (decide _); [|done]. simpl.
    by rewrite decide_False by lia. }
  assert (Hset : set (Num v) c u w = (Resolved_null, put_buffer u s w)).
  { rewrite set_stores, or_num_mark. fold s. rewrite Hs2. reflexivity. }
  assert (Hw' : w' = put_buffer u s w) by (unfold w', exec; by rewrite Hset).
  clearbody w'. subst w'.
  assert (Hget : ∀ j, JsArray.get s.1 j =
            if decide (j = c - 1) then Some v else JsArray.get (stored w u) j).
  { intros j. unfold s. simpl. apply store1_get. }
  rewrite put_buffer_stored_eq, put_buffer_mark. split_and!.
  - unfold eval. by rewrite Hset.
  - reflexivity.
  - exact Hs2.
  - by rewrite Hget, decide_True.
  - exact Hlen.
  - intros n. unfold first_channels. apply list_fmap_ext. intros i j Hj.
    apply lookup_seqZ in Hj as [-> _]. by rewrite Hget, decide_False by lia.
Qed.

Lemma set_below_first_channel_witness :
  0 ≤ 0 ∧ mark fresh 0 = 0 ∧
  eval (set (Num 99) 0 0) fresh = Resolved_null ∧
  sent (exec (set (Num 99) 0 0) fresh) = sent fresh ∧
  JsArray.get (stored (exec (set (Num 99) 0 0) fresh) 0) (0 - 1) = Some 99.
Proof.
  assert (H0 : mark fresh 0 = 0) by reflexivity.
  destruct (set_below_first_channel fresh 99 0 0 ltac:(lia) H0) as (H1 & H2 & _ & H3 & _).
  split; [lia|]. split; [exact H0|]. split; [exact H1|]. split; [exact H2|exact H3].
Defined.

(** ** Every frame a [set] sends *)

Lemma store1_covers (index v j : Z) (s : JsArray.t * Z) :
  s.2 ≤ (store1 index v s).2 ∧
  (JsArray.get (store1 index v s).1 j ≠ JsArray.get s.1 j → j < (store1 index v s).2).
Proof.
  unfold store1. destruct (decide (JsArray.get s.1 index ≠ Some v)) as [Hne|Heq].
  - simpl. destruct (bool_decide_reflect (index + 1 > s.2)); (split; [lia|]).
    + unfold JsArray.get, JsArray.put. simpl. intros Hj.
      destruct (decide (index = j)) as [->|Hij]; [lia|].
      by rewrite lookup_insert_ne in Hj.
    + unfold JsArray.get, JsArray.put. simpl. intros Hj.
      destruct (decide (index = j)) as [->|Hij]; [lia|].
      by rewrite lookup_insert_ne in Hj.
  - split; [lia|done].
Qed.

Lemma stores_covers (channel j : Z) (vs : list Z) :
  ∀ (i : Z) (s : JsArray.t * Z),
    s.2 ≤ (stores channel i vs s).2 ∧
    (JsArray.get (stores channel i vs s).1 j ≠ JsArray.get s.1 j →
     j < (stores channel i vs s).2).
Proof.
  induction vs as [|v rest IH]; intros i s; simpl; [split; [lia|done]|].
  destruct (store1_covers (channel + i - 1) v j s) as [Hmono Hcov].
  destruct (IH (i + 1) (store1 (channel + i - 1) v s)) as [Hmono' Hcov'].
  split; [lia|]. intros Hj.
  destruct (decide (JsArray.get (store1 (channel + i - 1) v s).1 j = JsArray.get s.1 j))
    as [Heq|Hne].
  - apply Hcov'. by rewrite Heq.
  - specialize (Hcov Hne). lia.
Qed.

Lemma store_value_covers (v : value) (channel j : Z) (s : JsArray.t * Z) :
  s.2 ≤ (store_value v channel s).2 ∧
  (JsArray.get (store_value v channel s).1 j ≠ JsArray.get s.1 j →
   j < (store_value v channel s).2).
Proof. destruct v; simpl; [apply store1_covers|apply stores_covers]. Qed.

(** X16. The frame of an accepted [set] carries the universe as the call
    has left it. On an object reached by calls that stay within channel
    512, whenever a [set] within channel 512 (one value or an array) is
    answered with the socket's promise, it has handed the socket one frame
    whose payload is the first [L] channels of the array after the stores,
    [L ≤ 512] being its length field, and every channel this call changed
    lies within those [L]. *)
Theorem set_frame_covers_changes
    (config : option Config) (acts : list action) (v : value) (c u : Z) :
  Forall within_512 acts →
  let w := run (constructor config) acts in
  last_channel v c ≤ 512 →
  eval (set v c u) w = Settles_with_socket →
  let w' := exec (set v c u) w in
  ∃ frame,
    sent w' = sent w ++ [Datagram frame (port (this w)) (host (this w))] ∧
    2 ≤ length_field frame ≤ 512 ∧
    payload frame = first_channels (stored w' u) (length_field frame) ∧
    ∀ j, JsArray.get (stored w' u) j ≠ JsArray.get (stored w u) j →
         j < length_field frame.
Proof.
  intros Hacts w Hlast Hev w'.
  destruct (run_reaches config acts Hacts) as (Hbuf & Hmarks & _ & _).
  fold w in Hbuf, Hmarks.
  pose proof (marks_mark w u Hmarks) as Hm.
  set (s := store_value v c (stored w u, mark w u)).
  pose proof (store_value_mark v c 512 (stored w u, mark w u) Hm Hlast) as Hs2.
  fold s in Hs2.
  destruct (set_result v c u w) as (_ & _ & Hout). rewrite Hev in Hout.
  unfold set_outcome in Hout. fold s in Hout.
  destruct (truthy_num (Some s.2)) eqn:Htr; [|done].
  destruct (is_throttled w u) eqn:Hb; [done|]. clear Hout.
  assert (Hnz : s.2 ≠ 0).
  { simpl in Htr. intros Hz. by rewrite Hz in Htr. }
  set (w1 := put_buffer u s w).
  assert (Hset : set v c u w = send u false w1).
  { rewrite set_stores, or_num_mark. fold s. fold w1. by rewrite Htr. }
  assert (Hw' : w' = exec (send u false) w1).
  { unfold w', exec. by rewrite Hset. }
  assert (Hst : stored w1 u = s.1) by apply put_buffer_stored_eq.
  assert (Hst' : stored w' u = s.1) by by rewrite Hw', send_stored.
  clearbody w' w.
  set (L0 := if sendAll (this w) then 512 else s.2).
  assert (HL0 : 1 ≤ L0 ≤ 512) by (unfold L0; destruct (sendAll (this w)); lia).
  assert (Hs2L : s.2 ≤ L0) by (unfold L0; destruct (sendAll (this w)); lia).
  destruct (even_up_512 L0 HL0) as [Hup Hlow].
  destruct (accepted_frame w1 u false L0)
    as (frame & Hsent & _ & Hfield & Hpay & _).
  - exact Hb.
  - rewrite Hst. apply store_value_ok. by apply stored_ok.
  - unfold w1. rewrite put_buffer_dataChanged.
    change (sendAll (this (put_buffer u s w))) with (sendAll (this w)).
    unfold L0. by destruct (sendAll (this w)).
  - exact HL0.
  - exists frame. rewrite Hst', Hfield. split_and!.
    + by rewrite Hw'.
    + lia.
    + lia.
    + by rewrite Hpay, Hst.
    + intros j Hj.
      destruct (store_value_covers v c j (stored w u, mark w u)) as [_ Hcov].
      fold s in Hcov. specialize (Hcov Hj). lia.
Qed.

Lemma set_frame_covers_changes_witness :
  Forall within_512 [CallSet (Num 255) 1 0; SleepEnds 0] ∧
  last_channel (Arr [1; 2; 3]) 4 ≤ 512 ∧
  eval (set (Arr [1; 2; 3]) 4 0)
    (run (constructor None) [CallSet (Num 255) 1 0; SleepEnds 0]) = Settles_with_socket ∧
  ∃ frame,
    sent (exec (set (Arr [1; 2; 3]) 4 0)
            (run (constructor None) [CallSet (Num 255) 1 0; SleepEnds 0])) =
      sent (run (constructor None) [CallSet (Num 255) 1 0; SleepEnds 0]) ++
      [Datagram frame
         (port (this (run (constructor None) [CallSet (Num 255) 1 0; SleepEnds 0])))
         (host (this (run (constructor None) [CallSet (Num 255) 1 0; SleepEnds 0])))] ∧
    2 ≤ length_field frame ≤ 512.
Proof.
  assert (H1 : Forall within_512 [CallSet (Num 255) 1 0; SleepEnds 0]).
  { repeat constructor; simpl; lia. }
  assert (H2 : last_channel (Arr [1; 2; 3]) 4 ≤ 512) by (simpl; lia).
  assert (H3 : eval (set (Arr [1; 2; 3]) 4 0)
    (run (constructor None) [CallSet (Num 255) 1 0; SleepEnds 0]) = Settles_with_socket).
  { vm_compute. reflexivity. }
  destruct (set_frame_covers_changes None [CallSet (Num 255) 1 0; SleepEnds 0]
              (Arr [1; 2; 3]) 4 0 H1 H2 H3) as (frame & Hs & Hf & _).
  split; [exact H1|]. split; [exact H2|]. split; [exact H3|].
  exists frame. split; [exact Hs|exact Hf].
Defined.

(** ** Every frame on the wire *)

Lemma trigger_wire_ok (w : World) (oem key subkey : option Z) :
  wire_ok (eval (triggerPackage oem key subkey) w).
Proof.
  exists 512. split_and!; [lia|lia|done| |].
  - by rewrite triggerPackage_length.
  - rewrite triggerPackage_eval. unfold art_net_id. simpl. discriminate.
Qed.

(** What a [send] adds to the socket's record when the array has its 512
    channels and the length it asks for is between 1 and 512. *)
Lemma send_wire_ok (w : World) (u : Z) (r : bool) (L : Z) :
  buffer_ok (stored w u) →
  (if (if sendAll (this w) then true else r)
   then Some 512 else dataChanged (this w) !! u) = Some L →
  1 ≤ L ≤ 512 →
  sent (exec (send u r) w) = sent w ∨
  ∃ frame,
    sent (exec (send u r) w) =
      sent w ++ [Datagram frame (port (this w)) (host (this w))] ∧
    wire_ok frame ∧ (L = 512 → length frame = 530%nat).
Proof.
  intros Hok Hn HL. destruct (is_throttled w u) eqn:Hb.
  - left. rewrite send_busy_exec by done. apply refreshInterval_sent.
  - right. destruct (accepted_frame w u r L Hb Hok Hn HL)
      as (frame & Hsent & Hlen & Hfield & _).
    destruct (even_up_512 L HL) as [Hup Hlow].
    destruct (even_up_spec L ltac:(lia)) as [Heven _].
    exists frame. split; [done|]. split.
    + exists (even_up L). split_and!; try done; lia.
    + intros ->. rewrite Hlen. reflexivity.
Qed.

Lemma ordinary_within_512 (a : action) : ordinary a → within_512 a.
Proof. by destruct a. Qed.

Lemma send_sendAll (u : Z) (r : bool) (w : World) :
  sendAll (this (exec (send u r) w)) = sendAll (this w).
Proof.
  destruct (is_throttled w u) eqn:Hb.
  - rewrite send_busy_exec by done. by rewrite refreshInterval_this.
  - by destruct (send_free u r w Hb) as (_ & -> & _).
Qed.

Lemma step_sendAll (w : World) (a : action) :
  sendAll (this (step w a)) = sendAll (this w).
Proof.
  destruct a; simpl.
  - destruct (set_world v channel universe w) as [s [-> | ->]]; [done|].
    by rewrite send_sendAll.
  - apply send_sendAll.
  - done.
  - done.
  - unfold setPort. step_m. by destruct (decide _).
  - done.
  - destruct (timers w !! id); [apply send_sendAll|done].
  - by destruct (decide _).
Qed.

(** An ordinary action hands the socket one well-formed frame, or none. *)
Lemma step_sent (w : World) (a : action) :
  buffers_ok w → marks_within_512 w → ordinary a →
  sent (step w a) = sent w ∨
  ∃ d, sent (step w a) = sent w ++ [d] ∧ wire_ok (dg_bytes d) ∧
       (sendAll (this w) = true → length (dg_bytes d) = 530%nat).
Proof.
  intros Hbuf Hmarks Ha.
  assert (Hforced : ∀ u,
    sent (exec (send u true) w) = sent w ∨
    ∃ d, sent (exec (send u true) w) = sent w ++ [d] ∧ wire_ok (dg_bytes d) ∧
         (sendAll (this w) = true → length (dg_bytes d) = 530%nat)).
  { intros u. destruct (send_wire_ok w u true 512) as [Hs|(frame & Hs & Hok & Hlen)].
    - by apply stored_ok.
    - by destruct (sendAll (this w)).
    - lia.
    - by left.
    - right. eexists. split; [exact Hs|]. split; [exact Hok|]. intros _. by apply Hlen. }
  destruct a as [v channel universe|universe r|oem key subkey|h|p| |id|universe];
    simpl in Ha; simpl step.
  - pose proof (marks_mark w universe Hmarks) as Hm.
    unfold exec. rewrite set_stores, or_num_mark.
    set (s := store_value v channel (stored w universe, mark w universe)).
    pose proof (store_value_mark v channel 512 (stored w universe, mark w universe) Hm Ha)
      as Hs2. fold s in Hs2.
    destruct (truthy_num (Some s.2)) eqn:Htr; [|by left].
    assert (Hnz : s.2 ≠ 0).
    { simpl in Htr. intros Hz. by rewrite Hz in Htr. }
    set (w1 := put_buffer universe s w).
    fold (exec (send universe false) w1).
    set (L := if sendAll (this w) then 512 else s.2).
    destruct (send_wire_ok w1 universe false L) as [Hs|(frame & Hs & Hok & Hlen)].
    + unfold w1. rewrite put_buffer_stored_eq. apply store_value_ok. by apply stored_ok.
    + unfold w1. rewrite put_buffer_dataChanged.
      change (sendAll (this (put_buffer universe s w))) with (sendAll (this w)).
      unfold L. by destruct (sendAll (this w)).
    + unfold L. destruct (sendAll (this w)); lia.
    + by left.
    + right. eexists. split; [exact Hs|]. split; [exact Hok|].
      intros Hall. apply Hlen. unfold L. by rewrite Hall.
  - subst r. apply Hforced.
  - right. eexists. split; [reflexivity|]. simpl. split.
    + apply (trigger_wire_ok w (Some oem) (Some key) (Some subkey)).
    + intros _.
      exact (triggerPackage_length (Some oem) (Some key) (Some subkey) w).
  - by left.
  - left. unfold setPort. step_m. by destruct (decide _).
  - left. by destruct (close_others w) as (_ & _ & -> & _).
  - destruct (timers w !! id); [apply Hforced|by left].
  - left. by destruct (decide _).
Qed.

(** X17. Every frame the class hands to the socket is well formed, as
    long as the calls stay within channel 512 and no unforced [send] is
    issued from outside [set]: 18 octets of header and an even number of
    payload octets between 2 and 512, and in a data frame the length field
    is exactly the number of payload octets. With [sendAll] configured
    every frame has 530 octets. *)
Theorem frames_well_formed (config : option Config) (acts : list action) :
  Forall ordinary acts →
  let w := run (constructor config) acts in
  Forall (λ d, wire_ok (dg_bytes d)) (sent w) ∧
  (sendAll (this (constructor config)) = true →
   Forall (λ d, length (dg_bytes d) = 530%nat) (sent w)).
Proof.
  intros Hacts w. unfold w. clear w.
  assert (Hgen : ∀ w0,
    buffers_ok w0 → marks_within_512 w0 →
    Forall (λ d, wire_ok (dg_bytes d)) (sent w0) →
    (sendAll (this w0) = true → Forall (λ d, length (dg_bytes d) = 530%nat) (sent w0)) →
    Forall (λ d, wire_ok (dg_bytes d)) (sent (run w0 acts)) ∧
    (sendAll (this w0) = true →
     Forall (λ d, length (dg_bytes d) = 530%nat) (sent (run w0 acts)))).
  { induction Hacts as [|a rest Ha Hrest IH]; intros w0 Hbuf Hmarks Hwire Hfull;
      [by split|].
    change (run w0 (a :: rest)) with (run (step w0 a) rest).
    rewrite <- (step_sendAll w0 a).
    apply IH.
    - by apply step_ok.
    - apply step_marks; [done|]. by apply ordinary_within_512.
    - destruct (step_sent w0 a Hbuf Hmarks Ha) as [-> | (d & -> & Hd & _)]; [done|].
      apply Forall_app. split; [done|]. by apply Forall_singleton.
    - rewrite step_sendAll. intros Hall.
      destruct (step_sent w0 a Hbuf Hmarks Ha) as [-> | (d & -> & _ & Hd)]; [auto|].
      apply Forall_app. split; [auto|]. apply Forall_singleton. auto. }
  apply Hgen.
  - apply constructor_ok.
  - intros u c. simpl. by rewrite lookup_empty.
  - simpl. constructor.
  - intros _. simpl. constructor.
Qed.

Lemma frames_well_formed_witness :
  Forall ordinary
    [CallSet (Arr [1; 2; 3]) 4 0; CallTrigger 65535 255 0; TimerFires 1; SleepEnds 0;
     CallSet (Num 5) 512 0] ∧
  Forall (λ d, wire_ok (dg_bytes d))
    (sent (run (constructor None)
       [CallSet (Arr [1; 2; 3]) 4 0; CallTrigger 65535 255 0; TimerFires 1; SleepEnds 0;
        CallSet (Num 5) 512 0])).
Proof.
  assert (H : Forall ordinary
    [CallSet (Arr [1; 2; 3]) 4 0; CallTrigger 65535 255 0; TimerFires 1; SleepEnds 0;
     CallSet (Num 5) 512 0]).
  { repeat constructor; simpl; lia. }
  split; [exact H|]. exact (proj1 (frames_well_formed None _ H)).
Defined.
